(** * spelling_master.py: the keystroke capture layer and the drill loop

    A shallow embedding of [src/spelling_master.py].  Python strings are
    lists of Unicode code points, the edit buffer is the Python list of
    one-character strings that [smart_input] keeps, standard output is the
    sequence of writes, and the keys are a finite list of what the
    environment delivers at each call of [getch()]. *)

From Stdlib.Strings Require Import Byte String Ascii.
From Stdlib Require Import List NArith ZArith Bool Arith Lia.
Import ListNotations.

Set Implicit Arguments.

(** ** Python values *)

(** A character is a Unicode code point; a [str] is a sequence of them. *)
Definition char := N.
Definition str := list char.

(** What [getch()] hands back: [None] or a [str]. *)
Definition pyobj := option str.

(** A string literal of the source, as code points. *)
Fixpoint py (s : string) : str :=
  match s with
  | EmptyString => []
  | String a r => N_of_ascii a :: py r
  end.

Fixpoint str_eqb (a b : str) : bool :=
  match a, b with
  | [], [] => true
  | x :: a', y :: b' => N.eqb x y && str_eqb a' b'
  | _, _ => false
  end.

(** [char == s] where [char] may be [None]. *)
Definition obj_eq (o : pyobj) (s : str) : bool :=
  match o with
  | Some t => str_eqb t s
  | None => false
  end.

(** [char in (s1, s2, ...)]: membership in a tuple, by [==]. *)
Definition obj_in (o : pyobj) (l : list str) : bool := existsb (obj_eq o) l.

(** Truth value of [char]: [None] and [''] are false. *)
Definition truthy (o : pyobj) : bool :=
  match o with
  | Some (_ :: _) => true
  | _ => false
  end.

Definition as_str (o : pyobj) : str :=
  match o with
  | Some s => s
  | None => []
  end.

(** [''.join(l)] *)
Definition join (l : list str) : str := List.concat l.

(** [l.pop()]: the last element and the list without it; [None] stands for
    the [IndexError] of popping an empty list. *)
Definition pop {A} (l : list A) : option (list A * A) :=
  match rev l with
  | [] => None
  | x :: r => Some (rev r, x)
  end.

(** [str.isspace] on one character: the code points that [str.strip()]
    removes. *)
Definition isspace (c : char) : bool :=
  ((9 <=? c) && (c <=? 13) || (28 <=? c) && (c <=? 32)
   || (c =? 133) || (c =? 160) || (c =? 5760)
   || (8192 <=? c) && (c <=? 8202)
   || (c =? 8232) || (c =? 8233) || (c =? 8239) || (c =? 8287)
   || (c =? 12288))%N.

Fixpoint lstrip (s : str) : str :=
  match s with
  | c :: r => if isspace c then lstrip r else s
  | [] => []
  end.

Definition rstrip (s : str) : str := rev (lstrip (rev s)).

(** [s.strip()] *)
Definition strip (s : str) : str := rstrip (lstrip s).

(** Exceptions the program can meet. *)
Inductive exn :=
| IndexError
| SystemExit (status : Z)
| TermiosError
| OSError.

(** How a call ends: it returns, it raises, or it is still waiting for a key
    that the finite list of keys does not hold. *)
Inductive outcome (A : Type) :=
| Ret (a : A)
| Raise (e : exn)
| Blocked.
Arguments Raise {A} e.
Arguments Blocked {A}.

(** The control characters the source names by escape. *)
Definition ETX : str := [3%N].     (* '\x03' *)
Definition BS : str := [8%N].      (* '\x08', also '\b' *)
Definition TAB : str := [9%N].     (* '\t' *)
Definition LF : str := [10%N].     (* '\n' *)
Definition CR : str := [13%N].     (* '\r' *)
Definition DEL : str := [127%N].   (* '\x7f' *)

(** What reaches the display. *)
Inductive OutEvent :=
| Write (s : str)                  (* sys.stdout.write(s) *)
| PrintTitle                       (* the two banner lines of main *)
| PrintStart (n : nat)             (* the "start, n words" line *)
| Prompt (index total : nat)       (* [index+1/total] prompt *)
| PrintCorrect
| PrintWrong (user_input : str)
| PrintDone.

(** ** smart_input *)

Section InputEngine.

(** [str.isprintable] above ASCII is the Unicode database's business. *)
Variable unicode_isprintable : char -> bool.

Definition isprintable_char (c : char) : bool :=
  if (c <? 128)%N then (32 <=? c)%N && (c <=? 126)%N
  else unicode_isprintable c.

(** [s.isprintable()]: every character printable, true on ['']. *)
Definition isprintable (s : str) : bool := forallb isprintable_char s.

(** The key reader chosen by [Getch()]: [Key] is what the environment
    delivers during one call, [Dev] the device state the reader owns. *)
Variables Key Dev : Type.
Variable getch : Key -> Dev -> outcome pyobj * Dev.

Record World := mkWorld { dev : Dev; stdout : list OutEvent }.

Definition write (s : str) (w : World) : World :=
  mkWorld (dev w) (stdout w ++ [Write s]).

Definition emit (e : OutEvent) (w : World) : World :=
  mkWorld (dev w) (stdout w ++ [e]).

(** One pass through the body of [while True], after [char = getch()]. *)
Inductive flow :=
| Continue (input_buffer : list str) (w : World)
| Break (r : outcome str) (w : World).

Definition loop_body (target_word : str) (char : pyobj)
           (input_buffer : list str) (w : World) : flow :=
  if obj_in char [CR; LF] then
    Break (Ret (join input_buffer)) (write LF w)
  else if obj_eq char TAB then
    let current_len := length input_buffer in
    let target_len := length target_word in
    if current_len <? target_len then
      match nth_error target_word current_len with
      | Some c =>
          let next_char := [c] in
          Continue (input_buffer ++ [next_char]) (write next_char w)
      | None => Break (Raise IndexError) w
      end
    else Continue input_buffer w
  else if obj_in char [BS; DEL] then
    if 0 <? length input_buffer then
      match pop input_buffer with
      | Some (rest, _) => Continue rest (write (BS ++ py " " ++ BS) w)
      | None => Break (Raise IndexError) w
      end
    else Continue input_buffer w
  else if truthy char && isprintable (as_str char) then
    Continue (input_buffer ++ [as_str char]) (write (as_str char) w)
  else if obj_eq char ETX then
    Break (Raise (SystemExit 0)) w
  else Continue input_buffer w.

(** The [while True] loop over the keys delivered so far. *)
Fixpoint smart_input_loop (target_word : str) (input_buffer : list str)
         (keys : list Key) (w : World) : outcome str * list Key * World :=
  match keys with
  | [] => (Blocked, [], w)
  | k :: keys' =>
      match getch k (dev w) with
      | (Ret char, d) =>
          match loop_body target_word char input_buffer (mkWorld d (stdout w)) with
          | Continue input_buffer' w' =>
              smart_input_loop target_word input_buffer' keys' w'
          | Break r w' => (r, keys', w')
          end
      | (Raise e, d) => (Raise e, keys', mkWorld d (stdout w))
      | (Blocked, d) => (Blocked, keys', mkWorld d (stdout w))
      end
  end.

Definition smart_input (target_word : str) (keys : list Key) (w : World)
  : outcome str * list Key * World :=
  match nth_error target_word 0 with
  | Some c0 =>
      let input_buffer := [[c0]] in
      smart_input_loop target_word input_buffer keys (write [c0] w)
  | None => (Raise IndexError, keys, w)
  end.

(** ** main *)

(** One pass through the body of [while index < len(words)]: the index
    the pass leaves behind. *)
Definition main_body (words : list str) (index : nat) (keys : list Key)
           (w : World) : outcome nat * list Key * World :=
  match nth_error words index with
  | Some target =>
      match smart_input target keys (emit (Prompt index (length words)) w) with
      | (Ret user_input, keys', w') =>
          if str_eqb (strip user_input) target then
            (Ret (index + 1), keys', emit PrintCorrect w')
          else
            (Ret index, keys', emit (PrintWrong user_input) w')
      | (Raise e, keys', w') => (Raise e, keys', w')
      | (Blocked, keys', w') => (Blocked, keys', w')
      end
  | None => (Raise IndexError, keys, w)
  end.

(** The drill loop; [None] only when [fuel] passes were not enough. *)
Fixpoint main_loop (fuel : nat) (words : list str) (index : nat)
         (keys : list Key) (w : World)
  : option (outcome unit * list Key * World) :=
  if index <? length words then
    match fuel with
    | 0 => None
    | S fuel' =>
        match main_body words index keys w with
        | (Ret index', keys', w') => main_loop fuel' words index' keys' w'
        | (Raise e, keys', w') => Some (Raise e, keys', w')
        | (Blocked, keys', w') => Some (Blocked, keys', w')
        end
    end
  else Some (Ret tt, keys, emit PrintDone w).

(** [main()], from the result of [load_wordbook(book_id)] on.  A pass
    that returns has read at least one key, so one more pass than there
    are keys is always enough. *)
Definition main (words : option (list str)) (keys : list Key) (w : World)
  : option (outcome unit * list Key * World) :=
  let w0 := emit PrintTitle w in
  match words with
  | None | Some [] => Some (Ret tt, keys, w0)
  | Some ws =>
      main_loop (S (length keys)) ws 0 keys (emit (PrintStart (length ws)) w0)
  end.

End InputEngine.

Arguments mkWorld {Dev} dev stdout.
Arguments Continue {Dev} input_buffer w.
Arguments Break {Dev} r w.

(** The status the interpreter exits with; [None] while it still runs. *)
Definition exit_status (r : outcome unit) : option Z :=
  match r with
  | Ret _ => Some 0%Z
  | Raise (SystemExit status) => Some status
  | Raise _ => Some 1%Z
  | Blocked => None
  end.

(** ** The key readers *)

(** A reader whose calls return the given values: the view [smart_input]
    has of any [getch]. *)
Definition scripted (k : pyobj) (d : unit) : outcome pyobj * unit := (Ret k, d).

Module _GetchWindows.

(** The next bytes on the console when [getch()] is called; the second is
    read only after a function-key lead byte. *)
Record Key := mkKey { first : byte; second : byte }.

(** [ch.decode('utf-8', 'ignore')] on a single byte. *)
Definition decode (ch : byte) : str :=
  let n := Byte.to_N ch in
  if (n <? 128)%N then [n] else [].

(** The device state is the bytes [msvcrt.getch()] has consumed. *)
Definition __call__ (k : Key) (consumed : list byte)
  : outcome pyobj * list byte :=
  let ch := first k in
  let consumed := consumed ++ [ch] in
  if Byte.eqb ch x00 || Byte.eqb ch xe0 then
    (Ret None, consumed ++ [second k])
  else (Ret (Some (decode ch)), consumed).

End _GetchWindows.

Module _GetchUnix.

(** What the terminal does during one call. *)
Inductive read_result :=
| ReadChar (c : char)
| ReadEOF
| ReadFails.

Record Key := mkKey {
  tcgetattr_ok : bool;
  setraw_ok : bool;
  read1 : read_result;
  tcsetattr_ok : bool
}.

Section Tty.

Variable TermAttrs : Type.
(** The attributes [tty.setraw] puts in place of the current ones. *)
Variable raw : TermAttrs -> TermAttrs.

Inductive TtyOp :=
| TcGetAttr
| SetRaw
| Read1 (during : TermAttrs)     (* the attributes in force at the read *)
| TcSetAttr (a : TermAttrs).

Record Tty := mkTty { attrs : TermAttrs; ops : list TtyOp }.

Definition M (A : Type) := Tty -> outcome A * Tty.

Definition ret {A} (a : A) : M A := fun t => (Ret a, t).

Definition bind {A B} (m : M A) (f : A -> M B) : M B :=
  fun t =>
    match m t with
    | (Ret a, t') => f a t'
    | (Raise e, t') => (Raise e, t')
    | (Blocked, t') => (Blocked, t')
    end.

(** [try: body finally: fin]: [fin] runs however [body] ends, and an
    exception of [fin] replaces the result of [body]; while [body] has not
    ended, [fin] has not run. *)
Definition try_finally {A} (body : M A) (fin : M unit) : M A :=
  fun t =>
    match body t with
    | (Blocked, t') => (Blocked, t')
    | (r, t') =>
        match fin t' with
        | (Ret _, t'') => (r, t'')
        | (Raise e, t'') => (Raise e, t'')
        | (Blocked, t'') => (Blocked, t'')
        end
    end.

Definition log (o : TtyOp) (t : Tty) : Tty := mkTty (attrs t) (ops t ++ [o]).

Definition tcgetattr (k : Key) : M TermAttrs :=
  fun t =>
    if tcgetattr_ok k then (Ret (attrs t), log TcGetAttr t)
    else (Raise TermiosError, log TcGetAttr t).

Definition setraw (k : Key) : M unit :=
  fun t =>
    if setraw_ok k then (Ret tt, mkTty (raw (attrs t)) (ops t ++ [SetRaw]))
    else (Raise TermiosError, log SetRaw t).

(** [sys.stdin.read(1)]: one character, or [''] at end of input. *)
Definition read (k : Key) : M str :=
  fun t =>
    match read1 k with
    | ReadChar c => (Ret [c], log (Read1 (attrs t)) t)
    | ReadEOF => (Ret [], log (Read1 (attrs t)) t)
    | ReadFails => (Raise OSError, log (Read1 (attrs t)) t)
    end.

Definition tcsetattr (k : Key) (a : TermAttrs) : M unit :=
  fun t =>
    if tcsetattr_ok k then (Ret tt, mkTty a (ops t ++ [TcSetAttr a]))
    else (Raise TermiosError, log (TcSetAttr a) t).

Notation "x <- m ;; f" := (bind m (fun x => f))
  (at level 61, m at next level, right associativity).

Definition __call__ (k : Key) : M pyobj :=
  old_settings <- tcgetattr k ;;
  ch <- try_finally
          (_ <- setraw k ;; read k)
          (tcsetattr k old_settings) ;;
  ret (Some ch).

(** [sys.stdin.read(1)] while the terminal has no character yet: the read
    has begun and has not returned. *)
Definition read_pending : M str :=
  fun t => (Blocked, log (Read1 (attrs t)) t).

(** The same call as far as it has got when its read still waits. *)
Definition __call__pending (k : Key) : M pyobj :=
  old_settings <- tcgetattr k ;;
  ch <- try_finally
          (_ <- setraw k ;; read_pending)
          (tcsetattr k old_settings) ;;
  ret (Some ch).

(** One call of the reader as the run sees it: it completes as its key
    says, or it is the call the process is still in. *)
Inductive Press :=
| Completes (k : Key)
| Waits (k : Key).

Definition key_of (p : Press) : Key :=
  match p with
  | Completes k | Waits k => k
  end.

Definition getch (p : Press) : M pyobj :=
  match p with
  | Completes k => __call__ k
  | Waits k => __call__pending k
  end.

End Tty.

End _GetchUnix.

(** ** load_wordbook and the start of main *)

(** What a path names: a text file, given by its decoded content, or a
    directory.  A path that names nothing is absent from the file system. *)
Inductive entry :=
| File (text : str)
| Directory.

Definition FileSystem := str -> option entry.

(** The message texts of the source, as code points. *)
Definition not_found_msg : str :=
  [10; 91; 38169; 35823; 93; 32; 25214; 19981; 21040; 25991; 20214; 58; 32]%N.

Definition create_file_msg : str :=
  [35831; 30830; 20445; 22312; 21516; 32423; 30446; 24405; 19979; 21019;
   24314; 20102; 35813; 25991; 20214; 65292; 27599; 34892; 19968; 20010;
   21333; 35789; 12290]%N.

Definition book_prompt : str :=
  [35831; 36755; 20837; 21333; 35789; 26412; 32534; 21495; 32; 40; 20363;
   22914; 36755; 20837; 50; 20195; 34920; 32; 119; 111; 114; 100; 98; 111;
   111; 107; 50; 46; 116; 120; 116; 41; 58; 32]%N.

(** [print(s)]: the text, then the line end. *)
Definition print {Dev} (s : str) (w : World Dev) : World Dev :=
  write LF (write s w).

(** The lines a text file yields when iterated: a line ends at a line feed,
    a carriage return or the pair of them, each handed over as one line
    feed; the last line may lack it. *)
Fixpoint readlines (text : str) : list str :=
  match text with
  | [] => []
  | c :: rest =>
      if (c =? 10)%N then LF :: readlines rest
      else if (c =? 13)%N then
        match rest with
        | c' :: rest' =>
            if (c' =? 10)%N then LF :: readlines rest'
            else LF :: readlines rest
        | [] => LF :: readlines rest
        end
      else
        match readlines rest with
        | [] => [[c]]
        | line :: lines => (c :: line) :: lines
        end
  end.

Definition load_wordbook {Dev} (fs : FileSystem) (book_id : str)
           (w : World Dev) : outcome (option (list str)) * World Dev :=
  let filename := py "wordbook" ++ book_id ++ py ".txt" in
  match fs filename with
  | None =>
      (Ret None, print create_file_msg (print (not_found_msg ++ filename) w))
  | Some Directory => (Raise OSError, w)
  | Some (File text) =>
      let words :=
        map strip
            (filter (fun line => truthy (Some (strip line))) (readlines text)) in
      (Ret (Some words), w)
  end.

(** [main()] from its first line: [line] is what [input] returned. *)
Definition main_program (up : char -> bool) {Key Dev : Type}
           (getch : Key -> Dev -> outcome pyobj * Dev) (fs : FileSystem)
           (line : str) (keys : list Key) (w : World Dev)
  : option (outcome unit * list Key * World Dev) :=
  let w := write book_prompt (emit PrintTitle w) in
  let book_id := strip line in
  match load_wordbook fs book_id w with
  | (Ret words, w) =>
      match words with
      | None | Some [] => Some (Ret tt, keys, w)
      | Some ws =>
          main_loop up getch (S (length keys)) ws 0 keys
            (emit (PrintStart (length ws)) w)
      end
  | (Raise e, w) => Some (Raise e, keys, w)
  | (Blocked, w) => Some (Blocked, keys, w)
  end.

(** ** Vocabulary of the statements *)

(** A string as the list of its one-character strings. *)
Definition singles (s : str) : list str := map (fun c => [c]) s.

(** The world after writing each string of [l] in turn. *)
Definition echo {Dev} (l : list str) (w : World Dev) : World Dev :=
  mkWorld (dev w) (stdout w ++ map Write l).

(** Keys that return the characters of [s] one at a time. *)
Definition typing (s : str) : list pyobj := map (fun c => Some [c]) s.

(** The keys the specification calls Ignored: [None] (a discarded
    function-key sequence), or a string that is neither printable and
    non-empty nor one of the submit, assist, backspace and interrupt
    codes. *)
Definition ignored (up : char -> bool) (char : pyobj) : bool :=
  match char with
  | None => true
  | Some s =>
      negb (truthy (Some s) && isprintable up s)
      && negb (existsb (str_eqb s) [CR; LF; TAB; BS; DEL; ETX])
  end.

(** A text file with one line per element of [ls], each ended by [eol]. *)
Definition unlines (eol : str) (ls : list str) : str :=
  List.concat (map (fun l => l ++ eol) ls).

(** No line break inside. *)
Definition one_line (l : str) : bool :=
  forallb (fun c => negb (c =? 10)%N && negb (c =? 13)%N) l.

(** No white space at the head. *)
Definition hd_ok (s : str) : Prop :=
  match s with
  | c :: _ => isspace c = false
  | [] => True
  end.

(** For each character of [s], a Tab or the character itself. *)
Fixpoint assist_or_type (assist : list bool) (s : str) : list pyobj :=
  match assist, s with
  | b :: assist', c :: s' =>
      (if b then Some TAB else Some [c]) :: assist_or_type assist' s'
  | _, _ => []
  end.

(** Tabs for all but the first character of the word, then Enter. *)
Definition assist_keys (word : str) : list pyobj :=
  repeat (Some TAB) (length word - 1) ++ [Some LF].

(** The buffer that a sequence of writes would leave, read as the echo of
    [smart_input]: the erase sequence takes the last element away, any
    other write adds one. *)
Fixpoint replay (buf : list str) (out : list OutEvent) : list str :=
  match out with
  | Write s :: out' =>
      if str_eqb s (BS ++ py " " ++ BS) then replay (removelast buf) out'
      else replay (buf ++ [s]) out'
  | _ :: out' => replay buf out'
  | [] => buf
  end.

(** How many times "Correct!" was printed. *)
Definition corrects (out : list OutEvent) : nat :=
  length (filter (fun e => match e with PrintCorrect => true | _ => false end)
                 out).

(** The erase sequence of the backspace branch. *)
Definition erase : str := BS ++ py " " ++ BS.

(** A character that was typed (printable) or given by the target. *)
Definition allowed (up : char -> bool) (target : str) (c : char) : Prop :=
  isprintable_char up c = true \/ In c target.

(** * Properties *)

Unset Implicit Arguments.

(** ** Strings and lists *)

Lemma str_eqb_refl (s : str) : str_eqb s s = true.
Proof.
  induction s as [|c s IH]; simpl; [reflexivity|].
  now rewrite N.eqb_refl, IH.
Qed.

Lemma str_eqb_eq (a b : str) : str_eqb a b = true <-> a = b.
Proof.
  split.
  - revert b; induction a as [|x a IH]; intros [|y b]; simpl; try discriminate.
    + reflexivity.
    + rewrite andb_true_iff, N.eqb_eq. intros [-> H]. now rewrite (IH _ H).
  - intros ->. apply str_eqb_refl.
Qed.

Lemma str_eqb_neq (a b : str) : str_eqb a b = false <-> a <> b.
Proof.
  rewrite <- str_eqb_eq. destruct (str_eqb a b); split; congruence.
Qed.

Example strip_both_ends :
  strip (py "  hi ") = py "hi" /\ strip (9 :: py "h i" ++ [10; 160])%N = py "h i".
Proof. split; reflexivity. Qed.

Lemma pop_snoc {A} (l : list A) (x : A) : pop (l ++ [x]) = Some (l, x).
Proof.
  unfold pop. rewrite rev_app_distr. simpl. now rewrite rev_involutive.
Qed.

Lemma pop_nonempty {A} (l : list A) :
  0 < length l -> exists r x, pop l = Some (r, x) /\ l = r ++ [x].
Proof.
  intros H. destruct (exists_last (l := l)) as [r [x ->]].
  - intros ->. inversion H.
  - exists r, x. split; [apply pop_snoc | reflexivity].
Qed.

(** ** Which branch of the loop body a key takes *)

Section Branches.

Variable up : char -> bool.
Variable Dev : Type.
Implicit Types (target : str) (buf : list str) (w : World Dev).

Lemma printable_not_special (c : char) :
  isprintable_char up c = true -> ~ In c [3; 8; 9; 10; 13; 127]%N.
Proof.
  unfold isprintable_char. simpl In.
  destruct (N.ltb_spec c 128) as [Hlt|Hge].
  - rewrite andb_true_iff, !N.leb_le. lia.
  - intros _. lia.
Qed.

Lemma loop_body_submit target buf w (sub : str) :
  In sub [CR; LF] ->
  loop_body up target (Some sub) buf w = Break (Ret (join buf)) (write LF w).
Proof.
  intros [<-|[<-|[]]]; reflexivity.
Qed.

Lemma loop_body_tab_lt target buf w :
  length buf < length target ->
  exists c, nth_error target (length buf) = Some c
            /\ loop_body up target (Some TAB) buf w
               = Continue (buf ++ [[c]]) (write [c] w).
Proof.
  intros Hlt.
  destruct (nth_error target (length buf)) as [c|] eqn:E.
  - exists c. split; [reflexivity|].
    unfold loop_body. cbn [obj_in obj_eq existsb str_eqb CR LF TAB N.eqb Pos.eqb orb andb].
    apply Nat.ltb_lt in Hlt. now rewrite Hlt, E.
  - apply nth_error_None in E. lia.
Qed.

Lemma loop_body_tab_ge target buf w :
  length target <= length buf ->
  loop_body up target (Some TAB) buf w = Continue buf w.
Proof.
  intros Hge. unfold loop_body.
  cbn [obj_in obj_eq existsb str_eqb CR LF TAB N.eqb Pos.eqb orb andb].
  apply Nat.ltb_ge in Hge. now rewrite Hge.
Qed.

Lemma loop_body_backspace_snoc target buf (x : str) w (bs : str) :
  In bs [BS; DEL] ->
  loop_body up target (Some bs) (buf ++ [x]) w
  = Continue buf (write (BS ++ py " " ++ BS) w).
Proof.
  intros Hbs. unfold loop_body.
  assert (Hlen : (0 <? length (buf ++ [x])) = true)
    by (apply Nat.ltb_lt; rewrite length_app; simpl; lia).
  destruct Hbs as [<-|[<-|[]]];
    cbn [obj_in obj_eq existsb str_eqb CR LF TAB BS DEL N.eqb Pos.eqb orb andb];
    now rewrite Hlen, pop_snoc.
Qed.

Lemma loop_body_backspace_nil target w (bs : str) :
  In bs [BS; DEL] ->
  loop_body up target (Some bs) [] w = Continue [] w.
Proof.
  intros [<-|[<-|[]]]; reflexivity.
Qed.

Lemma loop_body_printable target buf w (c : char) :
  isprintable_char up c = true ->
  loop_body up target (Some [c]) buf w
  = Continue (buf ++ [[c]]) (write [c] w).
Proof.
  intros Hp. pose proof (printable_not_special c Hp) as Hn. simpl in Hn.
  unfold loop_body, obj_in, obj_eq, CR, LF, TAB, BS, DEL. simpl existsb.
  cbn [str_eqb]. rewrite !andb_true_r, !orb_false_r.
  assert (E : forall n, c <> n -> (c =? n)%N = false)
    by (intros n; apply N.eqb_neq).
  rewrite (E 13%N), (E 10%N), (E 9%N), (E 8%N), (E 127%N) by lia.
  simpl. now rewrite Hp.
Qed.

Lemma loop_body_interrupt target buf w :
  loop_body up target (Some ETX) buf w = Break (Raise (SystemExit 0)) w.
Proof. reflexivity. Qed.

End Branches.

(** ** Runs of the loop with a scripted reader *)

Lemma join_singles (s : str) : join (singles s) = s.
Proof. induction s as [|c s IH]; simpl; [reflexivity | now f_equal]. Qed.

Lemma join_app (a b : list str) : join (a ++ b) = join a ++ join b.
Proof. apply concat_app. Qed.

Lemma length_singles (s : str) : length (singles s) = length s.
Proof. apply length_map. Qed.

Lemma echo_nil {Dev} (w : World Dev) : echo [] w = w.
Proof. destruct w. unfold echo. simpl. now rewrite app_nil_r. Qed.

Lemma echo_cons {Dev} (s : str) (l : list str) (w : World Dev) :
  echo (s :: l) w = echo l (write s w).
Proof. unfold echo, write. simpl. now rewrite <- app_assoc. Qed.

Lemma skipn_nth_error {A} (l : list A) (k : nat) (x : A) :
  nth_error l k = Some x -> skipn k l = x :: skipn (S k) l.
Proof.
  revert k; induction l as [|y l IH]; intros [|k]; simpl; try discriminate.
  - now intros [= ->].
  - intros H. now rewrite (IH _ H).
Qed.

Section Scripted.

Variable up : char -> bool.
Implicit Types (target : str) (buf : list str) (w : World unit).

Lemma scripted_step target buf (char : pyobj) (keys : list pyobj) w :
  smart_input_loop up scripted target buf (char :: keys) w
  = match loop_body up target char buf w with
    | Continue buf' w' => smart_input_loop up scripted target buf' keys w'
    | Break r w' => (r, keys, w')
    end.
Proof. destruct w. reflexivity. Qed.

Lemma scripted_typing target (typed : str) :
  forallb (isprintable_char up) typed = true ->
  forall buf (keys : list pyobj) w,
    smart_input_loop up scripted target buf (typing typed ++ keys) w
    = smart_input_loop up scripted target (buf ++ singles typed) keys
        (echo (singles typed) w).
Proof.
  induction typed as [|c typed IH]; intros Hp buf keys w.
  - simpl. now rewrite app_nil_r, echo_nil.
  - simpl in Hp. apply andb_true_iff in Hp as [Hc Hp].
    cbn [typing map app]. rewrite scripted_step, (loop_body_printable up _ target buf w c Hc).
    fold (typing typed). rewrite (IH Hp).
    cbn [singles map]. now rewrite <- app_assoc, echo_cons.
Qed.

Lemma scripted_assists target (n : nat) :
  forall buf (keys : list pyobj) w,
    let given := firstn n (skipn (length buf) target) in
    smart_input_loop up scripted target buf (repeat (Some TAB) n ++ keys) w
    = smart_input_loop up scripted target (buf ++ singles given) keys
        (echo (singles given) w).
Proof.
  induction n as [|n IH]; intros buf keys w; cbv zeta.
  - simpl. now rewrite app_nil_r, echo_nil.
  - cbn [repeat app]. rewrite scripted_step.
    destruct (Nat.lt_ge_cases (length buf) (length target)) as [Hlt|Hge].
    + destruct (loop_body_tab_lt up _ target buf w Hlt) as [c [Hc ->]].
      rewrite IH. cbv zeta. rewrite length_app. simpl length.
      rewrite Nat.add_1_r, (skipn_nth_error _ _ _ Hc).
      cbn [firstn singles map]. now rewrite <- app_assoc, echo_cons.
    + rewrite (loop_body_tab_ge up _ target buf w Hge), IH. cbv zeta.
      rewrite (skipn_all2 _ Hge). now rewrite !firstn_nil.
Qed.

End Scripted.

(** ** The scripted reader stands for any reader *)

Section AnyReader.

Variable up : char -> bool.
Variables Key Dev : Type.
Variable getch : Key -> Dev -> outcome pyobj * Dev.

(** The body looks at the display only, never at the device. *)
Lemma loop_body_forget (target : str) (char : pyobj) (buf : list str)
      (w : World Dev) :
  match loop_body up target char buf w,
        loop_body up target char buf (mkWorld tt (stdout w)) with
  | Continue b w1, Continue b' w2 => b = b' /\ stdout w1 = stdout w2
  | Break r w1, Break r' w2 => r = r' /\ stdout w1 = stdout w2
  | _, _ => False
  end.
Proof.
  unfold loop_body.
  repeat match goal with
         | |- context [if ?b then _ else _] => destruct b
         | |- context [match ?o with Some _ => _ | None => _ end] => destruct o
         | |- context [let (_, _) := ?p in _] => destruct p
         end; split; reflexivity.
Qed.

(** X16.  If the calls of [getch] on [keys] return [chars], whatever the
    device state, the capture with [getch] ends as the scripted capture on
    [chars] does and writes the same: [smart_input] depends on its reader
    through the returned values only. *)
Lemma smart_input_loop_as_scripted (target : str) (keys : list Key)
      (chars : list pyobj) :
  Forall2 (fun k c => forall d, fst (getch k d) = Ret c) keys chars ->
  forall (buf : list str) (w : World Dev) (v : World unit),
    stdout w = stdout v ->
    let r := smart_input_loop up getch target buf keys w in
    let r' := smart_input_loop up scripted target buf chars v in
    fst (fst r) = fst (fst r') /\ stdout (snd r) = stdout (snd r').
Proof.
  induction 1 as [|k c keys chars Hk _ IH]; intros buf w v Hw; cbv zeta.
  - split; [reflexivity | exact Hw].
  - cbn [smart_input_loop]. specialize (Hk (dev w)).
    destruct (getch k (dev w)) as [o d]. cbn [fst] in Hk. subst o.
    cbn [scripted].
    pose proof (loop_body_forget target c buf (mkWorld d (stdout w))) as Hb.
    cbn [stdout] in Hb. destruct v as [[] ov]. cbn [stdout dev] in *. subst ov.
    destruct (loop_body up target c buf (mkWorld d (stdout w))) as [b w1|r w1],
             (loop_body up target c buf (mkWorld tt (stdout w))) as [b' w2|r' w2];
      try contradiction; destruct Hb as [-> Hb].
    + now apply IH.
    + split; [reflexivity | exact Hb].
Qed.

End AnyReader.

(** What the console reader returns depends on the key alone. *)
Lemma windows_reader_value (k : _GetchWindows.Key) (consumed : list byte) :
  fst (_GetchWindows.__call__ k consumed)
  = Ret (if Byte.eqb (_GetchWindows.first k) x00
            || Byte.eqb (_GetchWindows.first k) xe0
         then None
         else Some (_GetchWindows.decode (_GetchWindows.first k))).
Proof.
  unfold _GetchWindows.__call__.
  now destruct (Byte.eqb _ x00 || Byte.eqb _ xe0).
Qed.

(** "cat" on the console: c, an arrow key (lead byte and code, ignored), a,
    t, Enter. *)
Example console_cat :
  fst (fst (smart_input (fun _ => false) _GetchWindows.__call__ (py "cat")
              [_GetchWindows.mkKey "c" "a"; _GetchWindows.mkKey xe0 "H";
               _GetchWindows.mkKey "a" "t"; _GetchWindows.mkKey "t" x0d;
               _GetchWindows.mkKey x0d x00]%byte
              (mkWorld [] [])))
  = Ret (py "ccat").
Proof. reflexivity. Qed.

(** "apple" on a terminal: Tab, Tab, Enter, every call restoring the
    attributes. *)
Example terminal_apple :
  smart_input (fun _ => false) (_GetchUnix.__call__ (fun _ => true)) (py "apple")
    (map (fun c => _GetchUnix.mkKey true true (_GetchUnix.ReadChar c) true)
         [9; 9; 10]%N)
    (mkWorld (_GetchUnix.mkTty false []) [])
  = (Ret (py "app"), [],
     mkWorld
       (_GetchUnix.mkTty false
          (List.concat
             (repeat [_GetchUnix.TcGetAttr bool; _GetchUnix.SetRaw bool;
                      _GetchUnix.Read1 true; _GetchUnix.TcSetAttr false] 3)))
       [Write (py "a"); Write (py "p"); Write (py "p"); Write LF]).
Proof. reflexivity. Qed.

(** ** Claims about [smart_input] *)

(** C2.  For a non-empty target [c0 :: rest], keys that return printable
    characters one at a time and then a submit key (carriage return or line
    feed) make [smart_input] return the seed [c0] followed by the typed
    characters in order; every character is echoed and the seed is not
    consumed by the first keystroke. *)
Theorem typed_after_seed (up : char -> bool) (c0 : char) (rest typed sub : str)
        (w : World unit) :
  forallb (isprintable_char up) typed = true ->
  In sub [CR; LF] ->
  smart_input up scripted (c0 :: rest) (typing typed ++ [Some sub]) w
  = (Ret (c0 :: typed), [], write LF (echo (singles typed) (write [c0] w))).
Proof.
  intros Hp Hsub. unfold smart_input. cbn [nth_error].
  rewrite (scripted_typing up _ _ Hp), scripted_step.
  rewrite (loop_body_submit up _ _ _ _ _ Hsub).
  now rewrite join_app, join_singles.
Qed.

(** The scenario of C2: target "cat", keys c, a, t, Enter give "ccat". *)
Lemma typed_after_seed_cat :
  forallb (isprintable_char (fun _ => false)) (py "cat") = true
  /\ In CR [CR; LF]
  /\ smart_input (fun _ => false) scripted (py "cat")
       [Some (py "c"); Some (py "a"); Some (py "t"); Some CR] (mkWorld tt [])
     = (Ret (py "ccat"), [],
        mkWorld tt [Write (py "c"); Write (py "c"); Write (py "a");
                    Write (py "t"); Write LF]).
Proof.
  split; [reflexivity|]. split; [left; reflexivity|].
  apply (typed_after_seed (fun _ => false) 99%N (py "at") (py "cat") CR
           (mkWorld tt [])); [reflexivity | left; reflexivity].
Defined.

(** C3.  On a Tab, with [target_word[len(input_buffer)]] in range the loop
    body appends exactly that character to the buffer and echoes it; with
    the buffer at least as long as the target it changes nothing and writes
    nothing.  Consequently [n] Tabs in a row extend the buffer by the next
    characters of the target, at most up to the target's length, so the
    buffer is then no longer than the longer of its old length and the
    target; and a capture of nothing but [n] Tabs and a submit key returns
    the first [n + 1] characters of the target, never more than the
    target. *)
Theorem assist_appends_next_or_nothing (up : char -> bool) (target : str)
        (buf : list str) (w : World unit) :
  loop_body up target (Some TAB) buf w
  = (if length buf <? length target
     then let next_char := [nth (length buf) target 0%N] in
          Continue (buf ++ [next_char]) (write next_char w)
     else Continue buf w)
  /\ (forall (n : nat) (keys : list pyobj),
       let given := firstn n (skipn (length buf) target) in
       smart_input_loop up scripted target buf (repeat (Some TAB) n ++ keys) w
       = smart_input_loop up scripted target (buf ++ singles given) keys
           (echo (singles given) w)
       /\ length (buf ++ singles given) <= Nat.max (length buf) (length target))
  /\ (forall (n : nat),
       let returned := firstn (S n) target in
       fst (fst (smart_input up scripted target
                   (repeat (Some TAB) n ++ [Some LF]) w))
       = (if 0 <? length target then Ret returned else Raise IndexError)
       /\ length returned <= length target).
Proof.
  split; [|split].
  - destruct (length buf <? length target) eqn:E.
    + apply Nat.ltb_lt in E.
      destruct (loop_body_tab_lt up _ target buf w E) as [c [Hc ->]].
      cbv zeta. now rewrite (nth_error_nth target (length buf) 0%N Hc).
    + apply Nat.ltb_ge in E. now apply loop_body_tab_ge.
  - intros n keys given. split.
    + apply scripted_assists.
    + subst given. rewrite length_app, length_singles, length_firstn, length_skipn.
      lia.
  - intros n returned. split; [|subst returned; rewrite length_firstn; lia].
    destruct target as [|c0 rest]; [reflexivity|]. subst returned.
    unfold smart_input. cbn [nth_error length Nat.ltb Nat.leb].
    rewrite scripted_assists. cbv zeta. rewrite scripted_step.
    rewrite (loop_body_submit up _ _ _ _ LF) by (right; left; reflexivity).
    cbn [fst length skipn]. rewrite join_app, join_singles. reflexivity.
Qed.

(** C4.  A backspace key (either code) on a buffer whose last element is
    [x] leaves the buffer without that last element and writes the erase
    sequence; on an empty buffer it changes nothing and writes nothing.  For
    target "dog", keys d, Backspace, Enter return "d". *)
Theorem backspace_drops_last (up : char -> bool) (target : str)
        (buf : list str) (x : str) (w : World unit) (bs : str) :
  In bs [BS; DEL] ->
  loop_body up target (Some bs) (buf ++ [x]) w
  = Continue buf (write (BS ++ py " " ++ BS) w)
  /\ loop_body up target (Some bs) [] w = Continue [] w
  /\ fst (fst (smart_input up scripted (py "dog")
                 [Some (py "d"); Some bs; Some LF] w))
     = Ret (py "d").
Proof.
  intros Hbs. split; [|split].
  - now apply loop_body_backspace_snoc.
  - now apply loop_body_backspace_nil.
  - destruct w. destruct Hbs as [<-|[<-|[]]]; reflexivity.
Qed.

Lemma backspace_drops_last_dog :
  In DEL [BS; DEL]
  /\ loop_body (fun _ => false) (py "dog") (Some DEL) ([py "d"] ++ [py "d"])
       (mkWorld tt [])
     = Continue [py "d"] (mkWorld tt [Write (BS ++ py " " ++ BS)])
  /\ loop_body (fun _ => false) (py "dog") (Some DEL) [] (mkWorld tt [])
     = Continue [] (mkWorld tt [])
  /\ fst (fst (smart_input (fun _ => false) scripted (py "dog")
                 [Some (py "d"); Some DEL; Some LF] (mkWorld tt [])))
     = Ret (py "d").
Proof.
  split; [right; left; reflexivity|].
  apply (backspace_drops_last (fun _ => false) (py "dog") [py "d"] (py "d")
           (mkWorld tt []) DEL).
  right; left; reflexivity.
Defined.

(** C5.  For target "apple", keys Tab, Tab, Enter (either submit code)
    return exactly "app", after echoing a, p, p and a newline. *)
Theorem apple_two_assists (up : char -> bool) (w : World unit) :
  let w' := write LF (write (py "p") (write (py "p") (write (py "a") w))) in
  smart_input up scripted (py "apple") [Some TAB; Some TAB; Some CR] w
  = (Ret (py "app"), [], w')
  /\ smart_input up scripted (py "apple") [Some TAB; Some TAB; Some LF] w
     = (Ret (py "app"), [], w').
Proof. destruct w. split; reflexivity. Qed.

(** C9.  The seed is an ordinary element of the buffer: for a non-empty
    target, Backspace then Enter return the empty string; the Backspace
    empties the seeded buffer, a Tab on the empty buffer puts
    [target_word[0]] back, and Backspace, Tab, Enter return the seed
    alone. *)
Theorem seed_is_editable (up : char -> bool) (c0 : char) (rest : str)
        (w : World unit) (bs sub : str) :
  In bs [BS; DEL] ->
  In sub [CR; LF] ->
  let target := c0 :: rest in
  let erase := BS ++ py " " ++ BS in
  smart_input up scripted target [Some bs; Some sub] w
  = (Ret [], [], write LF (write erase (write [c0] w)))
  /\ loop_body up target (Some bs) [[c0]] w = Continue [] (write erase w)
  /\ loop_body up target (Some TAB) [] w = Continue [[c0]] (write [c0] w)
  /\ smart_input up scripted target [Some bs; Some TAB; Some sub] w
     = (Ret [c0], [],
        write LF (write [c0] (write erase (write [c0] w)))).
Proof.
  intros Hbs Hsub target erase.
  assert (Hpop : forall w' : World unit,
             loop_body up target (Some bs) [[c0]] w'
                            = Continue [] (write erase w'))
    by (intros w'; apply (loop_body_backspace_snoc up unit target [] [c0] w' bs Hbs)).
  assert (Htab : forall w' : World unit,
             loop_body up target (Some TAB) [] w'
                            = Continue [[c0]] (write [c0] w'))
    by (intros [d o]; reflexivity).
  split; [|split; [|split]].
  - unfold smart_input. cbn [target nth_error].
    rewrite scripted_step, Hpop, scripted_step.
    now rewrite (loop_body_submit up _ _ _ _ _ Hsub).
  - apply Hpop.
  - apply Htab.
  - unfold smart_input. cbn [target nth_error].
    rewrite scripted_step, Hpop, scripted_step, Htab, scripted_step.
    now rewrite (loop_body_submit up _ _ _ _ _ Hsub).
Qed.

Lemma seed_is_editable_dog :
  In BS [BS; DEL] /\ In CR [CR; LF]
  /\ smart_input (fun _ => false) scripted (py "dog") [Some BS; Some CR]
       (mkWorld tt [])
     = (Ret [], [],
        mkWorld tt [Write (py "d"); Write (BS ++ py " " ++ BS); Write LF]).
Proof.
  split; [left; reflexivity|]. split; [left; reflexivity|].
  apply (seed_is_editable (fun _ => false) 100%N (py "og") (mkWorld tt []) BS CR);
    left; reflexivity.
Defined.

(** C7.  An ignored key leaves the buffer and the display as they were and
    the loop goes on with the next key.  On the console reader a
    function-key lead byte (0x00 or 0xE0) is read together with its
    continuation byte and comes back as [None], which is such a key. *)
Theorem ignored_key_changes_nothing (up : char -> bool) (target : str)
        (buf : list str) (char : pyobj) (keys : list pyobj) (w : World unit)
        (lead second : byte) (wkeys : list _GetchWindows.Key)
        (ww : World (list byte)) :
  ignored up char = true ->
  In lead [x00; xe0] ->
  loop_body up target char buf w = Continue buf w
  /\ smart_input_loop up scripted target buf (char :: keys) w
     = smart_input_loop up scripted target buf keys w
  /\ _GetchWindows.__call__ (_GetchWindows.mkKey lead second) (dev ww)
     = (Ret None, dev ww ++ [lead; second])
  /\ smart_input_loop up _GetchWindows.__call__ target buf
       (_GetchWindows.mkKey lead second :: wkeys) ww
     = smart_input_loop up _GetchWindows.__call__ target buf wkeys
         (mkWorld (dev ww ++ [lead; second]) (stdout ww)).
Proof.
  intros Hig Hlead.
  assert (Hbody : forall Dev (v : World Dev),
             loop_body up target char buf v = Continue buf v).
  { intros Dev v. destruct char as [s|]; [|reflexivity].
    unfold ignored in Hig. apply andb_true_iff in Hig as [Hp Hs].
    apply negb_true_iff in Hp. apply negb_true_iff in Hs.
    cbn [existsb] in Hs. repeat (apply orb_false_iff in Hs as [? Hs]).
    unfold loop_body, obj_in, obj_eq. cbn [existsb as_str].
    repeat match goal with H : str_eqb s _ = false |- _ => rewrite H; clear H end.
    now rewrite Hp. }
  assert (Hcall : _GetchWindows.__call__ (_GetchWindows.mkKey lead second) (dev ww)
                  = (Ret None, dev ww ++ [lead; second])).
  { unfold _GetchWindows.__call__. cbn [_GetchWindows.first _GetchWindows.second].
    destruct Hlead as [<-|[<-|[]]]; cbn [Byte.eqb orb]; now rewrite <- app_assoc. }
  split; [apply Hbody|]. split; [|split; [exact Hcall|]].
  - now rewrite scripted_step, Hbody.
  - cbn [smart_input_loop]. now rewrite Hcall.
Qed.

Lemma ignored_key_changes_nothing_eof :
  ignored (fun _ => false) (Some []) = true
  /\ In xe0 [x00; xe0]
  /\ loop_body (fun _ => false) (py "cat") (Some []) [py "c"] (mkWorld tt [])
     = Continue [py "c"] (mkWorld tt []).
Proof.
  split; [reflexivity|]. split; [right; left; reflexivity|].
  apply (ignored_key_changes_nothing (fun _ => false) (py "cat") [py "c"]
           (Some []) [] (mkWorld tt []) xe0 "H"%byte [] (mkWorld [] [])).
  - reflexivity.
  - right; left; reflexivity.
Defined.

(** ** Indexing stays in range *)

Lemma loop_body_no_index_error (up : char -> bool) (Dev : Type) (target : str)
      (char : pyobj) (buf : list str) (w w' : World Dev) :
  loop_body up target char buf w <> Break (Raise IndexError) w'.
Proof.
  unfold loop_body.
  destruct (obj_in char [CR; LF]); [discriminate|].
  destruct (obj_eq char TAB).
  - destruct (length buf <? length target) eqn:E; [|discriminate].
    apply Nat.ltb_lt in E.
    destruct (nth_error target (length buf)) eqn:N; [discriminate|].
    apply nth_error_None in N. lia.
  - destruct (obj_in char [BS; DEL]).
    + destruct (0 <? length buf) eqn:E; [|discriminate].
      apply Nat.ltb_lt in E.
      destruct (pop_nonempty buf E) as [r [x [-> _]]]. discriminate.
    + destruct (truthy char && isprintable up (as_str char)); [discriminate|].
      destruct (obj_eq char ETX); discriminate.
Qed.

Lemma smart_input_loop_no_index_error (up : char -> bool) (Key Dev : Type)
      (getch : Key -> Dev -> outcome pyobj * Dev) (target : str) :
  (forall k d, fst (getch k d) <> Raise IndexError) ->
  forall (keys : list Key) (buf : list str) (w : World Dev),
    fst (fst (smart_input_loop up getch target buf keys w)) <> Raise IndexError.
Proof.
  intros Hg keys. induction keys as [|k keys IH]; intros buf w.
  - discriminate.
  - cbn [smart_input_loop]. specialize (Hg k (dev w)).
    destruct (getch k (dev w)) as [[char|e|] d]; cbn [fst] in *.
    + destruct (loop_body up target char buf (mkWorld d (stdout w)))
        as [buf' w'|r w'] eqn:E.
      * apply IH.
      * cbn [fst]. intros ->. now apply loop_body_no_index_error in E.
    + intros [= ->]. now apply Hg.
    + discriminate.
Qed.

Lemma windows_reader_returns (k : _GetchWindows.Key) (consumed : list byte) :
  exists char, fst (_GetchWindows.__call__ k consumed) = Ret char.
Proof.
  unfold _GetchWindows.__call__.
  destruct (Byte.eqb _ x00 || Byte.eqb _ xe0); eexists; reflexivity.
Qed.

Lemma unix_reader_no_index_error (TermAttrs : Type)
      (raw : TermAttrs -> TermAttrs) (k : _GetchUnix.Key)
      (t : _GetchUnix.Tty TermAttrs) :
  fst (_GetchUnix.__call__ raw k t) <> Raise IndexError.
Proof.
  destruct k as [g s r a].
  unfold _GetchUnix.__call__, _GetchUnix.bind, _GetchUnix.try_finally,
    _GetchUnix.tcgetattr, _GetchUnix.setraw, _GetchUnix.read,
    _GetchUnix.tcsetattr, _GetchUnix.ret.
  cbn [_GetchUnix.tcgetattr_ok _GetchUnix.setraw_ok _GetchUnix.read1
       _GetchUnix.tcsetattr_ok].
  destruct g, s, r, a; discriminate.
Qed.

(** With an empty target the seeding itself is out of range. *)
Lemma empty_target_raises (up : char -> bool) (Key Dev : Type)
      (getch : Key -> Dev -> outcome pyobj * Dev) (keys : list Key)
      (w : World Dev) :
  smart_input up getch [] keys w = (Raise IndexError, keys, w).
Proof. reflexivity. Qed.

(** C10.  For a non-empty target and every sequence of keys, with any key
    reader that does not itself raise [IndexError] (the scripted reader and
    both platform readers are such), [smart_input] never raises
    [IndexError]: [target_word[0]] is in range, [target_word[current_len]]
    is read only under [current_len < target_len], and [pop] only on a
    non-empty buffer. *)
Theorem no_index_error (up : char -> bool) (Key Dev : Type)
        (getch : Key -> Dev -> outcome pyobj * Dev) (target : str)
        (keys : list Key) (w : World Dev) :
  target <> [] ->
  (forall k d, fst (getch k d) <> Raise IndexError) ->
  fst (fst (smart_input up getch target keys w)) <> Raise IndexError.
Proof.
  intros Hne Hg. destruct target as [|c0 rest]; [contradiction|].
  unfold smart_input. cbn [nth_error].
  now apply smart_input_loop_no_index_error.
Qed.

Lemma no_index_error_apple :
  py "apple" <> []
  /\ (forall k d, fst (scripted k d) <> Raise IndexError)
  /\ fst (fst (smart_input (fun _ => false) scripted (py "apple")
                 (repeat (Some TAB) 9 ++ repeat (Some BS) 9 ++ [Some TAB])
                 (mkWorld tt [])))
     <> Raise IndexError.
Proof.
  split; [discriminate|]. split; [discriminate|].
  apply (no_index_error (fun _ => false) pyobj unit scripted (py "apple")
           (repeat (Some TAB) 9 ++ repeat (Some BS) 9 ++ [Some TAB])
           (mkWorld tt [])); discriminate.
Defined.

(** ** The drill loop *)

Section Drill.

Variable up : char -> bool.
Variables Key Dev : Type.
Variable getch : Key -> Dev -> outcome pyobj * Dev.

(** A capture that returns has read at least its submit key. *)
Lemma smart_input_loop_reads (target : str) (keys : list Key) :
  forall (buf : list str) (w : World Dev) (s : str) (keys' : list Key)
         (w' : World Dev),
    smart_input_loop up getch target buf keys w = (Ret s, keys', w') ->
    length keys' < length keys.
Proof.
  induction keys as [|k keys IH]; intros buf w s keys' w'; cbn [smart_input_loop].
  - discriminate.
  - destruct (getch k (dev w)) as [[char|e|] d]; try discriminate.
    destruct (loop_body up target char buf (mkWorld d (stdout w)))
      as [buf' w1|r w1].
    + intros H. apply IH in H. simpl. lia.
    + intros [= _ <- _]. simpl. lia.
Qed.

Lemma main_body_reads (words : list str) (index index' : nat)
      (keys keys' : list Key) (w w' : World Dev) :
  main_body up getch words index keys w = (Ret index', keys', w') ->
  length keys' < length keys.
Proof.
  unfold main_body, smart_input.
  destruct (nth_error words index) as [target|]; [|discriminate].
  destruct (nth_error target 0) as [c0|]; [|discriminate].
  destruct (smart_input_loop up getch target [[c0]] keys _)
    as [[[s|e|] ks] w1] eqn:E; try discriminate.
  apply smart_input_loop_reads in E.
  destruct (str_eqb (strip s) target); intros [= _ <- _]; exact E.
Qed.

(** One more pass than there are keys is enough fuel. *)
Lemma main_loop_enough_fuel (words : list str) (fuel : nat) :
  forall (index : nat) (keys : list Key) (w : World Dev),
    length keys < fuel ->
    main_loop up getch fuel words index keys w <> None.
Proof.
  induction fuel as [|fuel IH]; intros index keys w Hlen; [lia|].
  cbn [main_loop]. destruct (index <? length words); [|discriminate].
  destruct (main_body up getch words index keys w) as [[[i|e|] ks] w1] eqn:E;
    try discriminate.
  apply IH. apply main_body_reads in E. lia.
Qed.

Lemma main_total (words : option (list str)) (keys : list Key) (w : World Dev) :
  main up getch words keys w <> None.
Proof.
  unfold main. destruct words as [[|t ws]|]; try discriminate.
  apply main_loop_enough_fuel. lia.
Qed.

(** An exception of the capture ends the drill loop at once. *)
Lemma main_loop_raise (fuel : nat) (words : list str) (index : nat)
      (target : str) (keys keys' : list Key) (w w' : World Dev) (e : exn) :
  nth_error words index = Some target ->
  smart_input up getch target keys (emit (Prompt index (length words)) w)
  = (Raise e, keys', w') ->
  main_loop up getch (S fuel) words index keys w = Some (Raise e, keys', w').
Proof.
  intros Ht Hs. cbn [main_loop].
  assert (Hi : index < length words) by (apply nth_error_Some; congruence).
  apply Nat.ltb_lt in Hi. rewrite Hi. unfold main_body. now rewrite Ht, Hs.
Qed.

End Drill.

(** C1, as the code has it.  In one pass of the drill loop the string
    [smart_input] returned is compared with the target after [strip()]: the
    index goes up by one exactly when the stripped string equals the target,
    and otherwise stays, the submitted text is shown as it was returned, and
    the same target is asked again. *)
Theorem advance_iff_stripped_equal (up : char -> bool) (Key Dev : Type)
        (getch : Key -> Dev -> outcome pyobj * Dev) (words : list str)
        (index : nat) (target : str) (keys keys' : list Key)
        (w w' : World Dev) (user_input : str) :
  nth_error words index = Some target ->
  smart_input up getch target keys (emit (Prompt index (length words)) w)
  = (Ret user_input, keys', w') ->
  exists index',
    main_body up getch words index keys w
    = (Ret index', keys',
       emit (if str_eqb (strip user_input) target
             then PrintCorrect else PrintWrong user_input) w')
    /\ (index' = index + 1 <-> strip user_input = target)
    /\ (index' = index <-> strip user_input <> target).
Proof.
  intros Ht Hs. unfold main_body. rewrite Ht, Hs.
  destruct (str_eqb (strip user_input) target) eqn:E.
  - apply str_eqb_eq in E. exists (index + 1).
    split; [reflexivity|]. split; split; intros H.
    + exact E.
    + reflexivity.
    + lia.
    + contradiction.
  - apply str_eqb_neq in E. exists index.
    split; [reflexivity|]. split; split; intros H.
    + lia.
    + contradiction.
    + exact E.
    + reflexivity.
Qed.

(** WordBook ["hi"]: the answer "hx" keeps the index at 0. *)
Lemma advance_iff_stripped_equal_hx :
  nth_error [py "hi"] 0 = Some (py "hi")
  /\ smart_input (fun _ => false) scripted (py "hi") [Some (py "x"); Some CR]
       (emit (Prompt 0 1) (mkWorld tt []))
     = (Ret (py "hx"), [],
        mkWorld tt [Prompt 0 1; Write (py "h"); Write (py "x"); Write LF])
  /\ exists index',
      main_body (fun _ => false) scripted [py "hi"] 0
        [Some (py "x"); Some CR] (mkWorld tt [])
      = (Ret index', [],
         mkWorld tt [Prompt 0 1; Write (py "h"); Write (py "x"); Write LF;
                     PrintWrong (py "hx")])
      /\ (index' = 0 + 1 <-> strip (py "hx") = py "hi")
      /\ (index' = 0 <-> strip (py "hx") <> py "hi").
Proof.
  split; [reflexivity|]. split; [reflexivity|].
  apply (advance_iff_stripped_equal (fun _ => false) pyobj unit scripted
           [py "hi"] 0 (py "hi") [Some (py "x"); Some CR] []
           (mkWorld tt [])
           (mkWorld tt [Prompt 0 1; Write (py "h"); Write (py "x"); Write LF])
           (py "hx")); reflexivity.
Defined.

(** WordBook ["hi"]: after "hx" the same word is asked again, and "hi"
    completes the drill. *)
Example drill_hi_retry :
  main (fun _ => false) scripted (Some [py "hi"])
    [Some (py "x"); Some CR; Some (py "i"); Some CR] (mkWorld tt [])
  = Some (Ret tt, [],
          mkWorld tt [PrintTitle; PrintStart 1;
                      Prompt 0 1; Write (py "h"); Write (py "x"); Write LF;
                      PrintWrong (py "hx");
                      Prompt 0 1; Write (py "h"); Write (py "i"); Write LF;
                      PrintCorrect; PrintDone]).
Proof. reflexivity. Qed.

(** C1 as stated fails: with WordBook ["hi"], the keys i, space, Enter make
    [smart_input] return "hi " (three characters), which is not the target,
    and the index still goes from 0 to 1 and the drill completes. *)
Lemma padded_answer_advances :
  fst (fst (smart_input (fun _ => false) scripted (py "hi")
              [Some (py "i"); Some (py " "); Some CR]
              (emit (Prompt 0 1) (mkWorld tt []))))
  = Ret (py "hi ")
  /\ py "hi " <> py "hi"
  /\ fst (fst (main_body (fun _ => false) scripted [py "hi"] 0
                 [Some (py "i"); Some (py " "); Some CR] (mkWorld tt [])))
     = Ret 1
  /\ main (fun _ => false) scripted (Some [py "hi"])
       [Some (py "i"); Some (py " "); Some CR] (mkWorld tt [])
     = Some (Ret tt, [],
             mkWorld tt [PrintTitle; PrintStart 1; Prompt 0 1;
                         Write (py "h"); Write (py "i"); Write (py " ");
                         Write LF; PrintCorrect; PrintDone]).
Proof.
  split; [reflexivity|]. split; [discriminate|].
  split; reflexivity.
Qed.

(** ** Interrupt *)

(** C6, as the code has it.  Whatever the buffer holds, a key that returns
    the interrupt code 0x03 makes the capture raise [SystemExit(0)] with no
    echo and without reading another key; the drill loop does not catch it,
    so after any number of typed characters the whole run ends there, and
    the interpreter exits with status 0, the status of a run that completed
    the drill. *)
Theorem interrupt_exits_with_status_zero (up : char -> bool) (target : str)
        (buf : list str) (keys : list pyobj) (w : World unit)
        (fuel : nat) (words : list str) (index : nat) (c0 : char)
        (rest typed : str) :
  nth_error words index = Some (c0 :: rest) ->
  forallb (isprintable_char up) typed = true ->
  smart_input_loop up scripted target buf (Some ETX :: keys) w
  = (Raise (SystemExit 0), keys, w)
  /\ main_loop up scripted (S fuel) words index
       (typing typed ++ Some ETX :: keys) w
     = Some (Raise (SystemExit 0), keys,
             echo (singles typed)
               (write [c0] (emit (Prompt index (length words)) w)))
  /\ exit_status (Raise (SystemExit 0)) = Some 0%Z
  /\ exit_status (Raise (SystemExit 0)) = exit_status (Ret tt).
Proof.
  intros Ht Hp.
  assert (Hloop : forall b (v : World unit),
             smart_input_loop up scripted target b (Some ETX :: keys) v
             = (Raise (SystemExit 0), keys, v))
    by (intros b [d o]; reflexivity).
  split; [apply Hloop|]. split; [|split; reflexivity].
  apply (main_loop_raise up pyobj unit scripted fuel words index (c0 :: rest)
           _ _ _ _ _ Ht).
  unfold smart_input. cbn [nth_error].
  rewrite (scripted_typing up _ _ Hp), scripted_step.
  now rewrite loop_body_interrupt.
Qed.

Lemma interrupt_exits_with_status_zero_hi :
  nth_error [py "hi"] 0 = Some (py "hi")
  /\ forallb (isprintable_char (fun _ => false)) (py "i") = true
  /\ main_loop (fun _ => false) scripted 1 [py "hi"] 0
       [Some (py "i"); Some ETX; Some CR] (mkWorld tt [])
     = Some (Raise (SystemExit 0), [Some CR],
             mkWorld tt [Prompt 0 1; Write (py "h"); Write (py "i")]).
Proof.
  split; [reflexivity|]. split; [reflexivity|].
  apply (interrupt_exits_with_status_zero (fun _ => false) (py "hi") []
           [Some CR] (mkWorld tt []) 0 [py "hi"] 0 104%N (py "i") (py "i"));
    reflexivity.
Defined.

(** C6 as stated fails: the run that is interrupted at its first key and the
    run that completes the drill both exit with status 0, so the status does
    not tell a cancellation from a completion. *)
Lemma interrupt_status_is_success :
  main (fun _ => false) scripted (Some [py "hi"]) [Some ETX] (mkWorld tt [])
  = Some (Raise (SystemExit 0), [],
          mkWorld tt [PrintTitle; PrintStart 1; Prompt 0 1; Write (py "h")])
  /\ exit_status (Raise (SystemExit 0)) = Some 0%Z
  /\ fst (fst (smart_input (fun _ => false) scripted (py "hi")
                 [Some (py "i"); Some CR] (mkWorld tt [])))
     = Ret (py "hi")
  /\ option_map (fun r => exit_status (fst (fst r)))
       (main (fun _ => false) scripted (Some [py "hi"])
          [Some (py "i"); Some CR] (mkWorld tt []))
     = Some (Some 0%Z).
Proof. repeat split. Qed.

(** ** What the loops do to the device *)

Section DeviceInvariant.

Variable up : char -> bool.
Variables Key Dev : Type.
Variable getch : Key -> Dev -> outcome pyobj * Dev.
(** [P] holds of the device between calls; a call on a key satisfying [Q]
    keeps it unless the call is left waiting. *)
Variable P : Dev -> Prop.
Variable Q : Key -> Prop.
Hypothesis getch_keeps :
  forall k d, Q k -> P d -> fst (getch k d) <> Blocked -> P (snd (getch k d)).

Lemma loop_body_dev (target : str) (char : pyobj) (buf : list str)
      (w : World Dev) :
  match loop_body up target char buf w with
  | Continue _ w' | Break _ w' => dev w' = dev w
  end.
Proof.
  unfold loop_body.
  repeat match goal with
         | |- context [if ?b then _ else _] => destruct b
         | |- context [match ?o with Some _ => _ | None => _ end] => destruct o
         | |- context [let (_, _) := ?p in _] => destruct p
         end; reflexivity.
Qed.

Lemma smart_input_loop_keeps (target : str) (keys : list Key) :
  forall (buf : list str) (w : World Dev),
    Forall Q keys -> P (dev w) ->
    let r := smart_input_loop up getch target buf keys w in
    (fst (fst r) <> Blocked -> P (dev (snd r))) /\ Forall Q (snd (fst r)).
Proof.
  induction keys as [|k keys IH]; intros buf w HQ HP; cbv zeta.
  - split; [intros _; exact HP | constructor].
  - inversion HQ as [|? ? Hk Hks]; subst. cbn [smart_input_loop].
    pose proof (getch_keeps k (dev w) Hk HP) as Hd.
    destruct (getch k (dev w)) as [[char|e|] d]; cbn [snd fst] in *.
    + pose proof (loop_body_dev target char buf (mkWorld d (stdout w))) as Hb.
      assert (HPd : P d) by (apply Hd; discriminate).
      destruct (loop_body up target char buf (mkWorld d (stdout w)))
        as [buf' w'|r w']; cbn [dev] in Hb.
      * apply IH; [assumption | now rewrite Hb].
      * cbn [snd fst]. rewrite Hb. split; [intros _; exact HPd | assumption].
    + split; [intros _; apply Hd; discriminate | assumption].
    + split; [intros H; now contradiction H | assumption].
Qed.

Lemma smart_input_keeps (target : str) (keys : list Key) (w : World Dev) :
  Forall Q keys -> P (dev w) ->
  let r := smart_input up getch target keys w in
  (fst (fst r) <> Blocked -> P (dev (snd r))) /\ Forall Q (snd (fst r)).
Proof.
  intros HQ HP. unfold smart_input.
  destruct (nth_error target 0); [|split; [intros _; exact HP | assumption]].
  now apply smart_input_loop_keeps.
Qed.

Lemma main_loop_keeps (words : list str) (fuel : nat) :
  forall (index : nat) (keys : list Key) (w : World Dev)
         (r : outcome unit * list Key * World Dev),
    Forall Q keys -> P (dev w) ->
    main_loop up getch fuel words index keys w = Some r ->
    fst (fst r) <> Blocked ->
    P (dev (snd r)).
Proof.
  induction fuel as [|fuel IH]; intros index keys w r HQ HP; cbn [main_loop];
    destruct (index <? length words); try discriminate;
    try (intros [= <-] _; exact HP).
  unfold main_body. destruct (nth_error words index) as [target|].
  - pose proof (smart_input_keeps target keys
                  (emit (Prompt index (length words)) w) HQ HP) as Hs.
    cbv zeta in Hs.
    destruct (smart_input up getch target keys _) as [[[s|e|] ks] w1];
      cbn [fst snd] in Hs; destruct Hs as [HP1 HQ1].
    + assert (HPw : P (dev w1)) by (apply HP1; discriminate).
      destruct (str_eqb (strip s) target); apply IH; assumption.
    + intros [= <-] _. apply HP1. discriminate.
    + intros [= <-] H. now contradiction H.
  - intros [= <-] _. exact HP.
Qed.

Lemma main_keeps (words : option (list str)) (keys : list Key)
      (w : World Dev) (r : outcome unit * list Key * World Dev) :
  Forall Q keys -> P (dev w) ->
  main up getch words keys w = Some r ->
  fst (fst r) <> Blocked ->
  P (dev (snd r)).
Proof.
  intros HQ HP. unfold main.
  destruct words as [[|t ws]|]; try (intros [= <-] _; exact HP).
  now apply main_loop_keeps.
Qed.

End DeviceInvariant.

(** ** The POSIX reader *)

Section PosixReader.

Import _GetchUnix.

Variable TermAttrs : Type.
Variable raw : TermAttrs -> TermAttrs.
Implicit Types (k : Key) (t : Tty TermAttrs).

Ltac run_call k :=
  destruct k as [g s r a];
  unfold __call__, bind, try_finally, tcgetattr, setraw, read, tcsetattr, ret, log;
  cbn [tcgetattr_ok setraw_ok read1 tcsetattr_ok].

Lemma call_ops k t :
  ops (snd (__call__ raw k t))
  = ops t ++ (if tcgetattr_ok k
              then [TcGetAttr TermAttrs; SetRaw TermAttrs]
                   ++ (if setraw_ok k then [Read1 (raw (attrs t))] else [])
                   ++ [TcSetAttr (attrs t)]
              else [TcGetAttr TermAttrs]).
Proof.
  run_call k.
  destruct g, s, r, a; cbn [snd ops attrs app]; rewrite <- ?app_assoc; reflexivity.
Qed.

Lemma call_restores k t :
  tcsetattr_ok k = true -> attrs (snd (__call__ raw k t)) = attrs t.
Proof.
  run_call k. intros ->. destruct g, s, r; reflexivity.
Qed.

Lemma call_result k t :
  tcgetattr_ok k = true -> setraw_ok k = true -> tcsetattr_ok k = true ->
  fst (__call__ raw k t)
  = match read1 k with
    | ReadChar c => Ret (Some [c])
    | ReadEOF => Ret (Some [])
    | ReadFails => Raise OSError
    end.
Proof.
  run_call k. intros -> -> ->. destruct r; reflexivity.
Qed.

Lemma pending_call k t :
  tcgetattr_ok k = true -> setraw_ok k = true ->
  __call__pending raw k t
  = (Blocked,
     mkTty (raw (attrs t))
       (ops t ++ [TcGetAttr TermAttrs; SetRaw TermAttrs;
                  Read1 (raw (attrs t))])).
Proof.
  destruct k as [g s r a]. cbn [tcgetattr_ok setraw_ok]. intros -> ->.
  unfold __call__pending, bind, try_finally, tcgetattr, setraw, read_pending, log.
  cbn [tcgetattr_ok setraw_ok attrs ops]. now rewrite <- !app_assoc.
Qed.

(** A call that is not left waiting leaves the attributes it found, when its
    restore goes through. *)
Lemma getch_restores (p : Press) t :
  tcsetattr_ok (key_of p) = true ->
  fst (getch raw p t) <> Blocked ->
  attrs (snd (getch raw p t)) = attrs t.
Proof.
  destruct p as [k|k]; cbn [key_of getch].
  - intros Hk _. now apply call_restores.
  - destruct k as [g s r a]. cbn [tcsetattr_ok]. intros ->.
    unfold __call__pending, bind, try_finally, tcgetattr, setraw, read_pending,
      tcsetattr, ret, log.
    cbn [tcgetattr_ok setraw_ok tcsetattr_ok].
    destruct g, s; cbn [fst snd attrs]; intros H; try reflexivity.
    now contradiction H.
Qed.

End PosixReader.

(** C8, as the code has it.  One completed call of the POSIX reader,
    whatever the terminal does (key [any]): the attributes are read first,
    and if that fails the call raises with nothing else done; otherwise raw
    mode is requested, one read follows under the raw attributes when raw
    mode was entered and none when [setraw] raised, and the last operation
    is the restore of the attributes saved at the start.  When that restore
    goes through (key [k]) the terminal has its old attributes back on every
    such path, and the call hands over the character read (or [''] at end of
    input, or the read's exception).  So a run of [main] whose calls restore
    successfully leaves the attributes it found whenever it ends, by
    completion, by an error or by Interrupt: a read of 0x03 ends the capture
    with [SystemExit(0)] after the restore.  A call whose read is still
    waiting holds the terminal in raw mode, with no restore issued yet. *)
Theorem terminal_restored_on_every_path (TermAttrs : Type)
        (raw : TermAttrs -> TermAttrs) (up : char -> bool)
        (any k : _GetchUnix.Key) (t : _GetchUnix.Tty TermAttrs)
        (target : str) (buf : list str) (words : option (list str))
        (keys : list _GetchUnix.Press)
        (w : World (_GetchUnix.Tty TermAttrs)) :
  _GetchUnix.tcsetattr_ok k = true ->
  Forall (fun p => _GetchUnix.tcsetattr_ok (_GetchUnix.key_of p) = true) keys ->
  _GetchUnix.ops (snd (_GetchUnix.__call__ raw any t))
  = _GetchUnix.ops t
    ++ (if _GetchUnix.tcgetattr_ok any
        then [_GetchUnix.TcGetAttr TermAttrs; _GetchUnix.SetRaw TermAttrs]
             ++ (if _GetchUnix.setraw_ok any
                 then [_GetchUnix.Read1 (raw (_GetchUnix.attrs t))] else [])
             ++ [_GetchUnix.TcSetAttr (_GetchUnix.attrs t)]
        else [_GetchUnix.TcGetAttr TermAttrs])
  /\ _GetchUnix.attrs (snd (_GetchUnix.__call__ raw k t)) = _GetchUnix.attrs t
  /\ (_GetchUnix.tcgetattr_ok k = true -> _GetchUnix.setraw_ok k = true ->
      fst (_GetchUnix.__call__ raw k t)
      = match _GetchUnix.read1 k with
        | _GetchUnix.ReadChar c => Ret (Some [c])
        | _GetchUnix.ReadEOF => Ret (Some [])
        | _GetchUnix.ReadFails => Raise OSError
        end)
  /\ (exists r, main up (_GetchUnix.getch raw) words keys w = Some r
                /\ (fst (fst r) <> Blocked ->
                    _GetchUnix.attrs (dev (snd r)) = _GetchUnix.attrs (dev w)))
  /\ (_GetchUnix.tcgetattr_ok k = true -> _GetchUnix.setraw_ok k = true ->
      _GetchUnix.read1 k = _GetchUnix.ReadChar 3%N ->
      exists d,
        smart_input_loop up (_GetchUnix.getch raw) target buf
          (_GetchUnix.Completes k :: keys) w
        = (Raise (SystemExit 0), keys, mkWorld d (stdout w))
        /\ _GetchUnix.attrs d = _GetchUnix.attrs (dev w))
  /\ (_GetchUnix.tcgetattr_ok any = true -> _GetchUnix.setraw_ok any = true ->
      _GetchUnix.getch raw (_GetchUnix.Waits any) t
      = (Blocked,
         _GetchUnix.mkTty (raw (_GetchUnix.attrs t))
           (_GetchUnix.ops t
              ++ [_GetchUnix.TcGetAttr TermAttrs; _GetchUnix.SetRaw TermAttrs;
                  _GetchUnix.Read1 (raw (_GetchUnix.attrs t))]))).
Proof.
  intros Hk Hkeys.
  split; [apply call_ops|]. split; [now apply call_restores|].
  split; [intros Hg Hs; now apply call_result|].
  split; [|split].
  - destruct (main up (_GetchUnix.getch raw) words keys w) as [r|] eqn:E.
    + exists r. split; [reflexivity|].
      refine (main_keeps up _ _ (_GetchUnix.getch raw)
                (fun d => _GetchUnix.attrs d = _GetchUnix.attrs (dev w))
                (fun p => _GetchUnix.tcsetattr_ok (_GetchUnix.key_of p) = true)
                _ words keys w r Hkeys eq_refl E).
      intros p d Hp <- Hnb. now apply getch_restores.
    + now apply main_total in E.
  - intros Hg Hs Hr.
    pose proof (call_result TermAttrs raw k (dev w) Hg Hs Hk) as Hres.
    pose proof (call_restores TermAttrs raw k (dev w) Hk) as Hd.
    rewrite Hr in Hres. cbn [smart_input_loop _GetchUnix.getch].
    destruct (_GetchUnix.__call__ raw k (dev w)) as [o d]. cbn [fst snd] in *.
    subst o. exists d. split; [reflexivity | exact Hd].
  - intros Hg Hs. cbn [_GetchUnix.getch]. now apply pending_call.
Qed.

(** Ctrl+C as the second key of a capture of "hi" on a terminal whose
    attributes are [false] when cooked and [true] when raw. *)
Lemma terminal_restored_on_interrupt :
  _GetchUnix.tcsetattr_ok
    (_GetchUnix.mkKey true true (_GetchUnix.ReadChar 3%N) true) = true
  /\ Forall (fun p => _GetchUnix.tcsetattr_ok (_GetchUnix.key_of p) = true) []
  /\ _GetchUnix.__call__ (fun _ => true)
       (_GetchUnix.mkKey true true (_GetchUnix.ReadChar 3%N) true)
       (_GetchUnix.mkTty false [])
     = (Ret (Some ETX),
        _GetchUnix.mkTty false
          [_GetchUnix.TcGetAttr bool; _GetchUnix.SetRaw bool;
           _GetchUnix.Read1 true; _GetchUnix.TcSetAttr false])
  /\ exists d,
      smart_input_loop (fun _ => false) (_GetchUnix.getch (fun _ => true))
        (py "hi") [py "h"]
        [_GetchUnix.Completes
           (_GetchUnix.mkKey true true (_GetchUnix.ReadChar 3%N) true)]
        (mkWorld (_GetchUnix.mkTty false []) [Write (py "h")])
      = (Raise (SystemExit 0), [], mkWorld d [Write (py "h")])
      /\ _GetchUnix.attrs d = false.
Proof.
  split; [reflexivity|]. split; [constructor|]. split; [reflexivity|].
  apply (terminal_restored_on_every_path bool (fun _ => true) (fun _ => false)
           (_GetchUnix.mkKey true false _GetchUnix.ReadFails false)
           (_GetchUnix.mkKey true true (_GetchUnix.ReadChar 3%N) true)
           (_GetchUnix.mkTty false []) (py "hi") [py "h"] (Some [py "hi"]) []
           (mkWorld (_GetchUnix.mkTty false []) [Write (py "h")]));
    (reflexivity || constructor).
Defined.

(** C8 as stated fails.  On a terminal whose attributes are [false] when
    cooked and [true] when raw: when standard input is not a terminal the
    call makes no read at all; and when the restore in the [finally] block
    fails after the letter a was read, the error ends the run of the drill on
    "hi" with exit status 1 and the terminal still in raw mode. *)
Lemma posix_read_not_always_restored :
  _GetchUnix.__call__ (fun _ => true)
    (_GetchUnix.mkKey false true (_GetchUnix.ReadChar 97%N) true)
    (_GetchUnix.mkTty false [])
  = (Raise TermiosError, _GetchUnix.mkTty false [_GetchUnix.TcGetAttr bool])
  /\ main (fun _ => false) (_GetchUnix.getch (fun _ => true)) (Some [py "hi"])
       [_GetchUnix.Completes
          (_GetchUnix.mkKey true true (_GetchUnix.ReadChar 97%N) false)]
       (mkWorld (_GetchUnix.mkTty false []) [])
     = Some (Raise TermiosError, [],
             mkWorld
               (_GetchUnix.mkTty true
                  [_GetchUnix.TcGetAttr bool; _GetchUnix.SetRaw bool;
                   _GetchUnix.Read1 true; _GetchUnix.TcSetAttr false])
               [PrintTitle; PrintStart 1; Prompt 0 1; Write (py "h")])
  /\ exit_status (Raise TermiosError) = Some 1%Z
  /\ _GetchUnix.attrs
       (_GetchUnix.mkTty true
          [_GetchUnix.TcGetAttr bool; _GetchUnix.SetRaw bool;
           _GetchUnix.Read1 true; _GetchUnix.TcSetAttr false])
     <> _GetchUnix.attrs (_GetchUnix.mkTty false []).
Proof.
  split; [reflexivity|]. split; [reflexivity|]. split; [reflexivity|].
  discriminate.
Qed.

(** The run that is still in its first read: the word is prompted and
    seeded, the terminal is raw and nothing has restored it yet. *)
Example waiting_read_holds_raw_mode :
  main (fun _ => false) (_GetchUnix.getch (fun _ => true)) (Some [py "hi"])
    [_GetchUnix.Waits (_GetchUnix.mkKey true true _GetchUnix.ReadEOF true)]
    (mkWorld (_GetchUnix.mkTty false []) [])
  = Some (Blocked, [],
          mkWorld
            (_GetchUnix.mkTty true
               [_GetchUnix.TcGetAttr bool; _GetchUnix.SetRaw bool;
                _GetchUnix.Read1 true])
            [PrintTitle; PrintStart 1; Prompt 0 1; Write (py "h")]).
Proof. reflexivity. Qed.

(** * More of the program *)

(** ** strip *)

Lemma lstrip_hd_ok (s : str) : hd_ok (lstrip s).
Proof.
  induction s as [|c s IH]; simpl; [exact I|].
  destruct (isspace c) eqn:E; [exact IH | exact E].
Qed.

Lemma lstrip_fixed (s : str) : hd_ok s -> lstrip s = s.
Proof. destruct s as [|c s]; simpl; [reflexivity | now intros ->]. Qed.

Lemma lstrip_split (s : str) :
  exists pre, s = pre ++ lstrip s /\ forallb isspace pre = true.
Proof.
  induction s as [|c s [pre [Hs Hp]]]; simpl.
  - now exists [].
  - destruct (isspace c) eqn:E.
    + exists (c :: pre). simpl. rewrite E, Hp. split; [now f_equal | reflexivity].
    + now exists [].
Qed.

Lemma lstrip_spaces (pre s : str) :
  forallb isspace pre = true -> lstrip (pre ++ s) = lstrip s.
Proof.
  induction pre as [|c pre IH]; simpl; [reflexivity|].
  intros H. apply andb_true_iff in H as [-> H]. now apply IH.
Qed.

Lemma lstrip_app (s t : str) :
  lstrip s <> [] -> lstrip (s ++ t) = lstrip s ++ t.
Proof.
  induction s as [|c s IH]; simpl; [congruence|].
  destruct (isspace c); [exact IH | reflexivity].
Qed.

Lemma lstrip_all_spaces (s : str) : lstrip s = [] -> forallb isspace s = true.
Proof.
  destruct (lstrip_split s) as [pre [Hs Hp]]. intros E.
  rewrite E, app_nil_r in Hs. now subst.
Qed.

Lemma rev_rstrip (s : str) : rev (rstrip s) = lstrip (rev s).
Proof. unfold rstrip. apply rev_involutive. Qed.

Lemma rstrip_split (s : str) :
  exists suf, s = rstrip s ++ suf /\ forallb isspace suf = true.
Proof.
  destruct (lstrip_split (rev s)) as [pre [Hs Hp]].
  exists (rev pre). split.
  - unfold rstrip. rewrite <- rev_app_distr, <- Hs. now rewrite rev_involutive.
  - rewrite forallb_forall in *. intros c Hc. apply Hp. now apply in_rev.
Qed.

Lemma rstrip_spaces (s suf : str) :
  forallb isspace suf = true -> rstrip (s ++ suf) = rstrip s.
Proof.
  intros H. unfold rstrip. rewrite rev_app_distr, lstrip_spaces; [reflexivity|].
  rewrite forallb_forall in *. intros c Hc. apply H. now apply in_rev.
Qed.

Lemma rstrip_fixed (s : str) : hd_ok (rev s) -> rstrip s = s.
Proof.
  intros H. unfold rstrip. rewrite (lstrip_fixed _ H). apply rev_involutive.
Qed.

Lemma strip_hd_ok (s : str) : hd_ok (strip s).
Proof.
  unfold strip. pose proof (lstrip_hd_ok s) as H.
  destruct (rstrip_split (lstrip s)) as [suf [Hs _]].
  destruct (rstrip (lstrip s)) as [|c r] eqn:E; [exact I|].
  rewrite Hs in H. exact H.
Qed.

Lemma strip_last_ok (s : str) : hd_ok (rev (strip s)).
Proof. unfold strip. rewrite rev_rstrip. apply lstrip_hd_ok. Qed.

Lemma strip_fixed (s : str) : hd_ok s -> hd_ok (rev s) -> strip s = s.
Proof.
  intros H1 H2. unfold strip. rewrite (lstrip_fixed _ H1). now apply rstrip_fixed.
Qed.

Lemma strip_idempotent (s : str) : strip (strip s) = strip s.
Proof. apply strip_fixed; [apply strip_hd_ok | apply strip_last_ok]. Qed.

Lemma strip_spaces_after (s suf : str) :
  forallb isspace suf = true -> strip (s ++ suf) = strip s.
Proof.
  intros H. unfold strip.
  destruct (lstrip s) as [|c r] eqn:E.
  - apply lstrip_all_spaces in E.
    rewrite (lstrip_spaces s suf E).
    destruct (lstrip_split suf) as [pre [Hs Hp]].
    assert (Hl : lstrip suf = []).
    { destruct (lstrip suf) as [|x l] eqn:Ex; [reflexivity|].
      pose proof (lstrip_hd_ok suf) as Hh. rewrite Ex in Hh. simpl in Hh.
      rewrite forallb_forall in H. rewrite (H x) in Hh; [discriminate|].
      rewrite Hs. apply in_or_app. right. now left. }
    now rewrite Hl.
  - rewrite lstrip_app by (rewrite E; discriminate).
    rewrite E. now apply rstrip_spaces.
Qed.

Lemma lstrip_of_spaces (s : str) : forallb isspace s = true -> lstrip s = [].
Proof.
  intros H. rewrite <- (app_nil_r s). now rewrite lstrip_spaces.
Qed.

Lemma strip_of_spaces (s : str) : forallb isspace s = true -> strip s = [].
Proof. intros H. unfold strip. now rewrite (lstrip_of_spaces _ H). Qed.

Lemma strip_incl (s : str) (c : char) : In c (strip s) -> In c s.
Proof.
  unfold strip. intros H.
  destruct (lstrip_split s) as [pre [Hs _]].
  destruct (rstrip_split (lstrip s)) as [suf [Hr _]].
  rewrite Hs, Hr. apply in_or_app. right. apply in_or_app. now left.
Qed.

(** ** readlines *)

Lemma readlines_line (l rest : str) :
  one_line l = true ->
  readlines (l ++ LF ++ rest) = (l ++ LF) :: readlines rest
  /\ readlines (l ++ (CR ++ LF) ++ rest) = (l ++ LF) :: readlines rest.
Proof.
  induction l as [|c l IH]; intros H.
  - split; reflexivity.
  - simpl in H. apply andb_true_iff in H as [Hc Hl].
    apply andb_true_iff in Hc as [H10 H13].
    apply negb_true_iff in H10, H13.
    destruct (IH Hl) as [IH1 IH2].
    split; cbn [app readlines]; rewrite H10, H13.
    + now rewrite IH1.
    + now rewrite IH2.
Qed.

Lemma readlines_unlines (eol : str) (ls : list str) :
  In eol [LF; CR ++ LF] ->
  forallb one_line ls = true ->
  readlines (unlines eol ls) = map (fun l => l ++ LF) ls.
Proof.
  intros Heol. induction ls as [|l ls IH]; intros H; [reflexivity|].
  simpl in H. apply andb_true_iff in H as [Hl Hls].
  unfold unlines. cbn [map List.concat]. fold (unlines eol ls).
  rewrite <- app_assoc. destruct (readlines_line l (unlines eol ls) Hl) as [H1 H2].
  destruct Heol as [<-|[<-|[]]]; [rewrite H1 | rewrite H2]; now rewrite IH.
Qed.

(** A line holds characters of the text, or the line feed that ends it. *)
Lemma readlines_chars (text : str) :
  forall line c, In line (readlines text) -> In c line ->
                 In c text \/ c = 10%N.
Proof.
  induction text as [|x text IH]; intros line c Hl Hc; [contradiction|].
  cbn [readlines] in Hl.
  destruct (x =? 10)%N eqn:E10.
  - destruct Hl as [<-|Hl].
    + right. now destruct Hc as [<-|[]].
    + destruct (IH line c Hl Hc); [left; now right | now right].
  - destruct (x =? 13)%N eqn:E13.
    + destruct text as [|y t].
      * right. destruct Hl as [<-|[]]. now destruct Hc as [<-|[]].
      * destruct (y =? 10)%N eqn:Ey.
        -- destruct Hl as [<-|Hl]; [right; now destruct Hc as [<-|[]]|].
           assert (Hin : In line (readlines (y :: t)))
             by (cbn [readlines]; rewrite Ey; now right).
           destruct (IH line c Hin Hc); [left; now right | now right].
        -- destruct Hl as [<-|Hl]; [right; now destruct Hc as [<-|[]]|].
           destruct (IH line c Hl Hc); [left; now right | now right].
    + destruct (readlines text) as [|l0 lines] eqn:E.
      * destruct Hl as [<-|[]]. destruct Hc as [<-|[]]. left. now left.
      * destruct Hl as [<-|Hl].
        -- destruct Hc as [<-|Hc]; [left; now left|].
           destruct (IH l0 c (or_introl eq_refl) Hc); [left; now right | now right].
        -- destruct (IH line c (or_intror Hl) Hc); [left; now right | now right].
Qed.

(** A line is free of line breaks up to the line feed that may end it. *)
Lemma readlines_shape (text : str) :
  Forall (fun line => exists body, one_line body = true
                                   /\ (line = body ++ LF \/ line = body))
         (readlines text).
Proof.
  assert (Hlf : exists body, one_line body = true
                             /\ (LF = body ++ LF \/ LF = body))
    by (exists []; split; [reflexivity | now left]).
  induction text as [|x text IH]; [constructor|].
  cbn [readlines]. destruct (x =? 10)%N eqn:E10; [now constructor|].
  destruct (x =? 13)%N eqn:E13.
  - destruct text as [|y t]; [now constructor|].
    destruct (y =? 10)%N eqn:Ey; [|now constructor].
    constructor; [exact Hlf|].
    cbn [readlines] in IH. rewrite Ey in IH. now inversion IH.
  - assert (Hx : one_line [x] = true)
      by (unfold one_line; simpl; now rewrite E10, E13).
    destruct (readlines text) as [|l0 lines].
    + constructor; [|constructor]. exists [x]. split; [exact Hx | now right].
    + inversion IH as [|? ? [body [Hb Hl]] Hrest]; subst.
      constructor; [|exact Hrest].
      exists (x :: body). split.
      * unfold one_line in *. simpl. now rewrite E10, E13, Hb.
      * destruct Hl as [->| ->]; [now left | now right].
Qed.

Lemma strip_one_line (line : str) :
  (exists body, one_line body = true /\ (line = body ++ LF \/ line = body)) ->
  one_line (strip line) = true.
Proof.
  intros [body [Hb Hl]].
  assert (Hs : strip line = strip body).
  { destruct Hl as [->| ->]; [|reflexivity]. now apply strip_spaces_after. }
  rewrite Hs. unfold one_line in *. rewrite forallb_forall in *.
  intros c Hc. apply Hb. now apply strip_incl.
Qed.

(** ** load_wordbook *)

(** X1.  Whatever the file holds, every word [load_wordbook] returns is
    non-empty, is its own [strip()] (no white space at either end) and
    holds no line break; loading prints nothing. *)
Theorem loaded_words_are_clean (Dev : Type) (fs : FileSystem) (book_id : str)
        (w w' : World Dev) (words : list str) :
  load_wordbook fs book_id w = (Ret (Some words), w') ->
  Forall (fun word => word <> [] /\ strip word = word
                      /\ one_line word = true) words
  /\ w' = w.
Proof.
  unfold load_wordbook.
  destruct (fs (py "wordbook" ++ book_id ++ py ".txt")) as [[text|]|];
    try discriminate.
  intros [= <- <-]. split; [|reflexivity].
  apply Forall_forall. intros word Hin.
  apply in_map_iff in Hin as [line [<- Hin]].
  apply filter_In in Hin as [Hin Ht].
  split; [|split].
  - intros E. rewrite E in Ht. discriminate.
  - apply strip_idempotent.
  - apply strip_one_line.
    exact (proj1 (Forall_forall _ _) (readlines_shape text) line Hin).
Qed.

Lemma loaded_words_are_clean_example :
  load_wordbook
    (fun path => if str_eqb path (py "wordbook2.txt")
                 then Some (File (py " hi " ++ CR ++ LF ++ LF ++ py "ice cream"))
                 else None)
    (py "2") (mkWorld tt [])
  = (Ret (Some [py "hi"; py "ice cream"]), mkWorld tt [])
  /\ Forall (fun word => word <> [] /\ strip word = word
                         /\ one_line word = true) [py "hi"; py "ice cream"].
Proof.
  split; [reflexivity|].
  apply (loaded_words_are_clean unit
           (fun path => if str_eqb path (py "wordbook2.txt")
                        then Some (File (py " hi " ++ CR ++ LF ++ LF
                                         ++ py "ice cream"))
                        else None)
           (py "2") (mkWorld tt []) (mkWorld tt [])
           [py "hi"; py "ice cream"]).
  reflexivity.
Defined.

Lemma load_wordbook_unlines (Dev : Type) (fs : FileSystem)
      (book_id eol : str) (ls : list str) (w : World Dev) :
  fs (py "wordbook" ++ book_id ++ py ".txt") = Some (File (unlines eol ls)) ->
  In eol [LF; CR ++ LF] ->
  forallb one_line ls = true ->
  load_wordbook fs book_id w
  = (Ret (Some (map strip (filter (fun l => truthy (Some (strip l))) ls))), w).
Proof.
  intros Hfs Heol Hls.
  unfold load_wordbook. rewrite Hfs, (readlines_unlines eol ls Heol Hls).
  do 3 f_equal. clear. induction ls as [|l ls IH]; [reflexivity|].
  cbn [map filter].
  rewrite (strip_spaces_after l LF eq_refl).
  destruct (truthy (Some (strip l))); cbn [map];
    rewrite ?(strip_spaces_after l LF eq_refl); now rewrite IH.
Qed.

Lemma clean_lines_kept (ls : list str) :
  Forall (fun l => l <> [] /\ strip l = l) ls ->
  map strip (filter (fun l => truthy (Some (strip l))) ls) = ls.
Proof.
  induction 1 as [|l ls [Hne Hs] _ IH]; [reflexivity|].
  cbn [filter]. rewrite Hs.
  destruct l as [|c l]; [congruence|].
  change (truthy (Some (c :: l))) with true. cbn [map]. now rewrite Hs, IH.
Qed.

(** X2.  The file format: for a file of lines ended by line feeds (or all
    by carriage return and line feed), [load_wordbook] returns the lines
    stripped, in order, without those that are blank; clean words written
    one per line come back as they were. *)
Theorem load_wordbook_lines (Dev : Type) (fs : FileSystem) (book_id eol : str)
        (ls : list str) (w : World Dev) :
  fs (py "wordbook" ++ book_id ++ py ".txt") = Some (File (unlines eol ls)) ->
  In eol [LF; CR ++ LF] ->
  forallb one_line ls = true ->
  load_wordbook fs book_id w
  = (Ret (Some (map strip (filter (fun l => truthy (Some (strip l))) ls))), w)
  /\ (Forall (fun l => l <> [] /\ strip l = l) ls ->
      load_wordbook fs book_id w = (Ret (Some ls), w)).
Proof.
  intros Hfs Heol Hls.
  pose proof (load_wordbook_unlines Dev fs book_id eol ls w Hfs Heol Hls)
    as Hload.
  split; [exact Hload|].
  intros Hclean. rewrite Hload. now rewrite (clean_lines_kept ls Hclean).
Qed.

Lemma load_wordbook_lines_example :
  (fun path => if str_eqb path (py "wordbook7.txt")
               then Some (File (unlines (CR ++ LF) [py "cat"; py " "; py "dog "]))
               else None) (py "wordbook" ++ py "7" ++ py ".txt")
  = Some (File (unlines (CR ++ LF) [py "cat"; py " "; py "dog "]))
  /\ In (CR ++ LF) [LF; CR ++ LF]
  /\ forallb one_line [py "cat"; py " "; py "dog "] = true
  /\ load_wordbook
       (fun path => if str_eqb path (py "wordbook7.txt")
                    then Some (File (unlines (CR ++ LF)
                                       [py "cat"; py " "; py "dog "]))
                    else None) (py "7") (mkWorld tt [])
     = (Ret (Some [py "cat"; py "dog"]), mkWorld tt []).
Proof.
  split; [reflexivity|]. split; [right; left; reflexivity|].
  split; [reflexivity|].
  apply (load_wordbook_lines unit
           (fun path => if str_eqb path (py "wordbook7.txt")
                        then Some (File (unlines (CR ++ LF)
                                           [py "cat"; py " "; py "dog "]))
                        else None)
           (py "7") (CR ++ LF) [py "cat"; py " "; py "dog "] (mkWorld tt []));
    [reflexivity | right; left; reflexivity | reflexivity].
Defined.

Lemma blank_text_no_words (text : str) :
  forallb isspace text = true ->
  filter (fun line => truthy (Some (strip line))) (readlines text) = [].
Proof.
  intros H.
  assert (Hall : forall line, In line (readlines text) -> strip line = []).
  { intros line Hin. apply strip_of_spaces. apply forallb_forall. intros c Hc.
    destruct (readlines_chars text line c Hin Hc) as [Ht| ->]; [|reflexivity].
    exact (proj1 (forallb_forall _ _) H c Ht). }
  induction (readlines text) as [|l ls IH]; [reflexivity|].
  cbn [filter]. rewrite (Hall l (or_introl eq_refl)). cbn [truthy].
  apply IH. intros line Hin. apply Hall. now right.
Qed.

(** X3.  When the word file is missing, or holds nothing but white space,
    [main] ends normally right after the question for the book number: no
    key is read, nothing is prompted, and only a missing file is reported,
    under the name [wordbook<id>.txt] with the id stripped. *)
Theorem no_words_no_drill (up : char -> bool) (Key Dev : Type)
        (getch : Key -> Dev -> outcome pyobj * Dev) (fs : FileSystem)
        (line : str) (keys : list Key) (w : World Dev) :
  match fs (py "wordbook" ++ strip line ++ py ".txt") with
  | None => True
  | Some (File text) => forallb isspace text = true
  | Some Directory => False
  end ->
  main_program up getch fs line keys w
  = Some (Ret tt, keys,
          match fs (py "wordbook" ++ strip line ++ py ".txt") with
          | None =>
              print create_file_msg
                (print (not_found_msg ++ py "wordbook" ++ strip line ++ py ".txt")
                   (write book_prompt (emit PrintTitle w)))
          | Some _ => write book_prompt (emit PrintTitle w)
          end).
Proof.
  unfold main_program, load_wordbook.
  destruct (fs (py "wordbook" ++ strip line ++ py ".txt")) as [[text|]|];
    intros H; try contradiction; [|reflexivity].
  now rewrite (blank_text_no_words text H).
Qed.

Lemma no_words_no_drill_missing :
  match (fun _ : str => @None entry) (py "wordbook" ++ strip (py " 9 ") ++ py ".txt") with
  | None => True
  | Some (File text) => forallb isspace text = true
  | Some Directory => False
  end
  /\ main_program (fun _ => false) scripted (fun _ => None) (py " 9 ")
       [Some (py "x"); Some CR] (mkWorld tt [])
     = Some (Ret tt, [Some (py "x"); Some CR],
             mkWorld tt [PrintTitle; Write book_prompt;
                         Write (not_found_msg ++ py "wordbook9.txt"); Write LF;
                         Write create_file_msg; Write LF]).
Proof.
  split; [exact I|].
  apply (no_words_no_drill (fun _ => false) pyobj unit scripted (fun _ => None)
           (py " 9 ") [Some (py "x"); Some CR] (mkWorld tt [])).
  exact I.
Defined.

(** ** No word of a book makes the capture fail *)

Lemma main_loop_no_index_error (up : char -> bool) (Key Dev : Type)
      (getch : Key -> Dev -> outcome pyobj * Dev) (words : list str) :
  Forall (fun word => word <> []) words ->
  (forall k d, fst (getch k d) <> Raise IndexError) ->
  forall (fuel index : nat) (keys : list Key) (w : World Dev)
         (r : outcome unit * list Key * World Dev),
    main_loop up getch fuel words index keys w = Some r ->
    fst (fst r) <> Raise IndexError.
Proof.
  intros Hw Hg fuel. induction fuel as [|fuel IH]; intros index keys w r;
    cbn [main_loop]; destruct (index <? length words) eqn:Hi;
    try discriminate; try (intros [= <-]; discriminate).
  apply Nat.ltb_lt in Hi. unfold main_body.
  destruct (nth_error words index) as [target|] eqn:Ht;
    [|apply nth_error_None in Ht; lia].
  assert (Hne : target <> [])
    by (exact (proj1 (Forall_forall _ _) Hw target (nth_error_In _ _ Ht))).
  destruct target as [|c0 rest]; [congruence|].
  unfold smart_input. cbn [nth_error].
  pose proof (smart_input_loop_no_index_error up Key Dev getch (c0 :: rest) Hg
                keys [[c0]] (write [c0] (emit (Prompt index (length words)) w)))
    as Hs.
  destruct (smart_input_loop up getch (c0 :: rest) [[c0]] keys _)
    as [[[s|e|] ks] w1]; cbn [fst] in Hs.
  - destruct (str_eqb (strip s) (c0 :: rest)); apply IH.
  - intros [= <-]. cbn [fst]. intros [= ->]. now apply Hs.
  - intros [= <-]. discriminate.
Qed.

(** X4.  Whatever the file system holds, whatever is answered to the
    question for the book number and whatever keys follow, [main] ends or
    waits for a key and never fails with [IndexError]: no word of a loaded
    book is empty, so the seed [target_word[0]] always exists.  (The key
    reader is any that does not raise [IndexError] itself.) *)
Theorem program_never_index_error (up : char -> bool) (Key Dev : Type)
        (getch : Key -> Dev -> outcome pyobj * Dev) (fs : FileSystem)
        (line : str) (keys : list Key) (w : World Dev) :
  (forall k d, fst (getch k d) <> Raise IndexError) ->
  exists r, main_program up getch fs line keys w = Some r
            /\ fst (fst r) <> Raise IndexError.
Proof.
  intros Hg. unfold main_program, load_wordbook.
  destruct (fs (py "wordbook" ++ strip line ++ py ".txt")) as [[text|]|].
  - set (words := map strip _).
    assert (Hw : Forall (fun word => word <> []) words).
    { apply Forall_forall. intros word Hin.
      apply in_map_iff in Hin as [l [<- Hin]].
      apply filter_In in Hin as [_ Ht]. intros E. rewrite E in Ht. discriminate. }
    destruct words as [|word words'] eqn:E.
    + eexists. split; [reflexivity | discriminate].
    + rewrite <- E in *.
      destruct (main_loop up getch (S (length keys)) words 0 keys _)
        as [r|] eqn:Er.
      * exists r. split; [reflexivity|].
        exact (main_loop_no_index_error up Key Dev getch words Hw Hg _ _ _ _ _ Er).
      * exfalso. revert Er. apply main_loop_enough_fuel. lia.
  - eexists. split; [reflexivity | discriminate].
  - eexists. split; [reflexivity | discriminate].
Qed.

Lemma program_never_index_error_example :
  (forall k d, fst (scripted k d) <> Raise IndexError)
  /\ exists r,
      main_program (fun _ => false) scripted
        (fun _ => Some (File (LF ++ py " a" ++ LF))) (py "1")
        [Some BS; Some BS; Some TAB; Some TAB; Some TAB; Some CR]
        (mkWorld tt [])
      = Some r
      /\ fst (fst r) <> Raise IndexError.
Proof.
  split; [discriminate|].
  apply (program_never_index_error (fun _ => false) pyobj unit scripted
           (fun _ => Some (File (LF ++ py " a" ++ LF))) (py "1")
           [Some BS; Some BS; Some TAB; Some TAB; Some TAB; Some CR]
           (mkWorld tt [])).
  discriminate.
Defined.

(** ** Assist and typing, letter by letter *)

Lemma scripted_assist_or_type (up : char -> bool) (todo : str) :
  forall (done : str) (assist : list bool) (keys : list pyobj)
         (w : World unit),
    length assist = length todo ->
    forallb (fun bc => fst bc || isprintable_char up (snd bc))
            (combine assist todo) = true ->
    smart_input_loop up scripted (done ++ todo) (singles done)
      (assist_or_type assist todo ++ keys) w
    = smart_input_loop up scripted (done ++ todo) (singles (done ++ todo)) keys
        (echo (singles todo) w).
Proof.
  induction todo as [|c todo IH]; intros done assist keys w Hlen Hok.
  - destruct assist; [|discriminate]. simpl. now rewrite app_nil_r, echo_nil.
  - destruct assist as [|b assist]; [discriminate|].
    injection Hlen as Hlen. cbn [combine forallb fst snd] in Hok.
    apply andb_true_iff in Hok as [Hb Hok].
    cbn [assist_or_type app]. rewrite scripted_step.
    match goal with
    | |- context [loop_body up ?t ?char ?buf w] =>
        assert (Hstep : loop_body up t char buf w
                        = Continue (singles done ++ [[c]]) (write [c] w))
    end.
    { destruct b.
      - destruct (loop_body_tab_lt up unit (done ++ c :: todo) (singles done) w)
          as [c' [Hc' ->]].
        + rewrite length_singles, length_app. simpl. lia.
        + rewrite length_singles, nth_error_app2, Nat.sub_diag in Hc' by lia.
          now injection Hc' as <-.
      - now apply loop_body_printable. }
    rewrite Hstep.
    replace (singles done ++ [[c]]) with (singles (done ++ [c]))
      by (unfold singles; now rewrite map_app).
    replace (done ++ c :: todo) with ((done ++ [c]) ++ todo)
      by (now rewrite <- app_assoc).
    rewrite (IH (done ++ [c]) assist keys (write [c] w) Hlen Hok).
    cbn [singles map]. now rewrite echo_cons.
Qed.

(** X5.  After the seed, each further letter of the target may be typed
    (if it is printable) or asked for with Tab, in any mix: the capture
    returns the target itself either way, and the echo is the same. *)
Theorem assist_and_typing_agree (up : char -> bool) (c0 : char) (rest : str)
        (assist : list bool) (sub : str) (w : World unit) :
  length assist = length rest ->
  forallb (fun bc => fst bc || isprintable_char up (snd bc))
          (combine assist rest) = true ->
  In sub [CR; LF] ->
  smart_input up scripted (c0 :: rest)
    (assist_or_type assist rest ++ [Some sub]) w
  = (Ret (c0 :: rest), [], write LF (echo (singles rest) (write [c0] w))).
Proof.
  intros Hlen Hok Hsub. unfold smart_input. cbn [nth_error].
  change (c0 :: rest) with ([c0] ++ rest).
  change [[c0]] with (singles [c0]).
  rewrite (scripted_assist_or_type up rest [c0] assist _ _ Hlen Hok).
  rewrite scripted_step, (loop_body_submit up _ _ _ _ _ Hsub).
  now rewrite join_singles.
Qed.

Lemma assist_and_typing_agree_cat :
  length [true; false] = length (py "at")
  /\ forallb (fun bc => fst bc || isprintable_char (fun _ => false) (snd bc))
       (combine [true; false] (py "at")) = true
  /\ In CR [CR; LF]
  /\ smart_input (fun _ => false) scripted (py "cat")
       [Some TAB; Some (py "t"); Some CR] (mkWorld tt [])
     = (Ret (py "cat"), [],
        mkWorld tt [Write (py "c"); Write (py "a"); Write (py "t"); Write LF]).
Proof.
  split; [reflexivity|]. split; [reflexivity|]. split; [left; reflexivity|].
  apply (assist_and_typing_agree (fun _ => false) 99%N (py "at") [true; false]
           CR (mkWorld tt [])); [reflexivity | reflexivity | left; reflexivity].
Defined.

(** ** Backspaces in a row *)

Lemma scripted_backspaces (up : char -> bool) (target bs : str) (n : nat) :
  In bs [BS; DEL] ->
  forall (buf : list str) (keys : list pyobj) (w : World unit),
    smart_input_loop up scripted target buf (repeat (Some bs) n ++ keys) w
    = smart_input_loop up scripted target (firstn (length buf - n) buf) keys
        (echo (repeat erase (Nat.min n (length buf))) w).
Proof.
  intros Hbs. induction n as [|n IH]; intros buf keys w.
  - cbn [repeat app Nat.min]. now rewrite Nat.sub_0_r, firstn_all, echo_nil.
  - cbn [repeat app]. rewrite scripted_step.
    destruct (Nat.eq_dec (length buf) 0) as [E|E].
    + apply length_zero_iff_nil in E. subst buf.
      rewrite (loop_body_backspace_nil up unit target w bs Hbs), IH.
      cbn [length Nat.sub firstn]. now rewrite !Nat.min_0_r.
    + destruct (pop_nonempty buf) as [r [x [_ ->]]]; [lia|].
      rewrite (loop_body_backspace_snoc up unit target r x w bs Hbs), IH.
      rewrite length_app. cbn [length].
      replace (length r + 1 - S n) with (length r - n) by lia.
      replace (Nat.min (S n) (length r + 1)) with (S (Nat.min n (length r)))
        by lia.
      cbn [repeat]. rewrite echo_cons.
      rewrite (firstn_app (length r - n) r [x]).
      replace (length r - n - length r) with 0 by lia.
      cbn [firstn]. now rewrite app_nil_r.
Qed.

(** X6.  [n] backspaces in a row, from any buffer, leave the buffer without
    its last [n] elements, or empty when it had fewer; exactly as many erase
    sequences are written as elements were removed, and nothing fails.  From
    the start of a capture, one backspace or more and then Enter return the
    empty string. *)
Theorem backspaces_stop_at_empty (up : char -> bool) (target bs : str)
        (n : nat) (buf : list str) (keys : list pyobj) (w : World unit) :
  In bs [BS; DEL] ->
  smart_input_loop up scripted target buf (repeat (Some bs) n ++ keys) w
  = smart_input_loop up scripted target (firstn (length buf - n) buf) keys
      (echo (repeat erase (Nat.min n (length buf))) w)
  /\ (target <> [] ->
      fst (fst (smart_input up scripted target
                  (repeat (Some bs) (S n) ++ [Some LF]) w))
      = Ret []).
Proof.
  intros Hbs. split; [now apply scripted_backspaces|].
  intros Hne. destruct target as [|c0 rest]; [congruence|].
  unfold smart_input. cbn [nth_error].
  rewrite (scripted_backspaces up (c0 :: rest) bs (S n) Hbs).
  cbn [length Nat.sub firstn]. rewrite scripted_step.
  now rewrite (loop_body_submit up unit (c0 :: rest) [] _ LF)
    by (right; left; reflexivity).
Qed.

Lemma backspaces_stop_at_empty_example :
  In DEL [BS; DEL]
  /\ smart_input_loop (fun _ => false) scripted (py "dog") [py "d"; py "o"]
       (repeat (Some DEL) 5 ++ [Some CR]) (mkWorld tt [])
     = smart_input_loop (fun _ => false) scripted (py "dog")
         (firstn (length [py "d"; py "o"] - 5) [py "d"; py "o"]) [Some CR]
         (echo (repeat erase (Nat.min 5 (length [py "d"; py "o"])))
            (mkWorld tt [])).
Proof.
  split; [right; left; reflexivity|].
  apply (backspaces_stop_at_empty (fun _ => false) (py "dog") DEL 5
           [py "d"; py "o"] [Some CR] (mkWorld tt [])).
  right; left; reflexivity.
Defined.

(** X7.  Typing and erasing cancel: after any printable characters and as
    many backspaces, the buffer is what it was before, and the display has
    received each character and then as many erase sequences. *)
Theorem typing_then_erasing (up : char -> bool) (target bs typed : str)
        (buf : list str) (keys : list pyobj) (w : World unit) :
  forallb (isprintable_char up) typed = true ->
  In bs [BS; DEL] ->
  smart_input_loop up scripted target buf
    (typing typed ++ repeat (Some bs) (length typed) ++ keys) w
  = smart_input_loop up scripted target buf keys
      (echo (repeat erase (length typed)) (echo (singles typed) w)).
Proof.
  intros Hp Hbs.
  rewrite (scripted_typing up target typed Hp).
  rewrite (scripted_backspaces up target bs (length typed) Hbs).
  rewrite length_app, length_singles.
  replace (length buf + length typed - length typed) with (length buf) by lia.
  replace (Nat.min (length typed) (length buf + length typed))
    with (length typed) by lia.
  rewrite firstn_app, firstn_all, Nat.sub_diag. cbn [firstn].
  now rewrite app_nil_r.
Qed.

Lemma typing_then_erasing_example :
  forallb (isprintable_char (fun _ => false)) (py "xy") = true
  /\ In BS [BS; DEL]
  /\ smart_input_loop (fun _ => false) scripted (py "dog") [py "d"]
       (typing (py "xy") ++ repeat (Some BS) (length (py "xy")) ++ [Some CR])
       (mkWorld tt [])
     = smart_input_loop (fun _ => false) scripted (py "dog") [py "d"]
         [Some CR]
         (echo (repeat erase (length (py "xy")))
            (echo (singles (py "xy")) (mkWorld tt []))).
Proof.
  split; [reflexivity|]. split; [left; reflexivity|].
  apply (typing_then_erasing (fun _ => false) (py "dog") BS (py "xy")
           [py "d"] [Some CR] (mkWorld tt []));
    [reflexivity | left; reflexivity].
Defined.

(** ** What the buffer can hold *)

Lemma pop_Some {A} (l r : list A) (x : A) : pop l = Some (r, x) -> l = r ++ [x].
Proof.
  unfold pop. destruct (rev l) as [|y t] eqn:E; [discriminate|].
  intros [= <- <-]. rewrite <- (rev_involutive l), E. reflexivity.
Qed.

Section BufferContent.

Variable up : char -> bool.
Variable target : str.

Lemma loop_body_allowed (Dev : Type) (char : pyobj) (buf : list str)
      (w : World Dev) :
  Forall (Forall (allowed up target)) buf ->
  match loop_body up target char buf w with
  | Continue buf' _ => Forall (Forall (allowed up target)) buf'
  | Break (Ret s) _ => Forall (allowed up target) s
  | Break _ _ => True
  end.
Proof.
  intros Hbuf. unfold loop_body.
  destruct (obj_in char [CR; LF]).
  { unfold join. now apply Forall_concat. }
  destruct (obj_eq char TAB).
  { destruct (length buf <? length target); [|exact Hbuf].
    destruct (nth_error target (length buf)) as [c|] eqn:E; [|exact I].
    apply Forall_app. split; [exact Hbuf|].
    constructor; [|constructor]. constructor; [|constructor]. right. exact (nth_error_In _ _ E). }
  destruct (obj_in char [BS; DEL]).
  { destruct (0 <? length buf); [|exact Hbuf].
    destruct (pop buf) as [[r x]|] eqn:E; [|exact I].
    apply pop_Some in E. subst buf. now apply Forall_app in Hbuf as [Hr _]. }
  destruct (truthy char && isprintable up (as_str char)) eqn:E.
  { apply andb_true_iff in E as [_ E].
    apply Forall_app. split; [exact Hbuf|]. constructor; [|constructor].
    apply Forall_forall. intros c Hc. left.
    exact (proj1 (forallb_forall _ _) E c Hc). }
  destruct (obj_eq char ETX); [exact I | exact Hbuf].
Qed.

Lemma smart_input_loop_allowed (Key Dev : Type)
      (getch : Key -> Dev -> outcome pyobj * Dev) (keys : list Key) :
  forall (buf : list str) (w : World Dev) (s : str) (keys' : list Key)
         (w' : World Dev),
    Forall (Forall (allowed up target)) buf ->
    smart_input_loop up getch target buf keys w = (Ret s, keys', w') ->
    Forall (allowed up target) s.
Proof.
  induction keys as [|k keys IH]; intros buf w s keys' w' Hbuf;
    cbn [smart_input_loop]; [discriminate|].
  destruct (getch k (dev w)) as [[char|e|] d]; try discriminate.
  pose proof (loop_body_allowed Dev char buf (mkWorld d (stdout w)) Hbuf) as Hb.
  destruct (loop_body up target char buf (mkWorld d (stdout w)))
    as [buf' w1|r w1].
  - now apply IH.
  - intros [= -> _ _]. exact Hb.
Qed.

End BufferContent.

(** X8.  With any key reader, every character of the string [smart_input]
    returns is a printable character or a character of the target word:
    control characters, and the submit, assist, backspace and interrupt
    codes in particular, never get into the answer unless the target holds
    them. *)
Theorem returned_text_is_printable_or_target (up : char -> bool)
        (Key Dev : Type) (getch : Key -> Dev -> outcome pyobj * Dev)
        (target : str) (keys keys' : list Key) (w w' : World Dev) (s : str) :
  smart_input up getch target keys w = (Ret s, keys', w') ->
  Forall (allowed up target) s.
Proof.
  unfold smart_input. destruct target as [|c0 rest]; [discriminate|].
  cbn [nth_error]. intros H.
  apply (smart_input_loop_allowed up (c0 :: rest) Key Dev getch keys
           [[c0]] (write [c0] w) s keys' w'); [|exact H].
  constructor; [|constructor]. constructor; [|constructor]. right. now left.
Qed.

Lemma returned_text_is_printable_or_target_example :
  smart_input (fun _ => false) scripted (py "his")
    [Some [1%N]; Some (py "x"); None; Some TAB; Some [27%N]; Some LF]
    (mkWorld tt [])
  = (Ret (py "hxs"), [],
     mkWorld tt [Write (py "h"); Write (py "x"); Write (py "s"); Write LF])
  /\ Forall (allowed (fun _ => false) (py "his")) (py "hxs").
Proof.
  split; [reflexivity|].
  apply (returned_text_is_printable_or_target (fun _ => false) pyobj unit
           scripted (py "his")
           [Some [1%N]; Some (py "x"); None; Some TAB; Some [27%N]; Some LF] []
           (mkWorld tt [])
           (mkWorld tt [Write (py "h"); Write (py "x"); Write (py "s");
                        Write LF])
           (py "hxs")).
  reflexivity.
Defined.

(** ** Where a capture ends *)

Lemma loop_body_continues (up : char -> bool) (Dev : Type) (target : str)
      (char : pyobj) (buf : list str) (w : World Dev) :
  obj_in char [CR; LF] = false ->
  obj_eq char ETX = false ->
  exists buf' w', loop_body up target char buf w = Continue buf' w'.
Proof.
  intros Hsub Hetx.
  destruct (loop_body up target char buf w) as [buf' w'|r w'] eqn:E;
    [now exists buf', w'|].
  exfalso. revert E. unfold loop_body. rewrite Hsub, Hetx.
  destruct (obj_eq char TAB).
  - destruct (length buf <? length target) eqn:L; [|discriminate].
    apply Nat.ltb_lt in L.
    destruct (nth_error target (length buf)) eqn:N; [discriminate|].
    apply nth_error_None in N. lia.
  - destruct (obj_in char [BS; DEL]).
    + destruct (0 <? length buf) eqn:L; [|discriminate].
      apply Nat.ltb_lt in L.
      destruct (pop_nonempty buf L) as [r' [x [-> _]]]. discriminate.
    + destruct (truthy char && isprintable up (as_str char)); discriminate.
Qed.

Lemma scripted_quiet_prefix (up : char -> bool) (target : str)
      (pre : list pyobj) :
  forallb (fun c => negb (obj_in c [CR; LF]) && negb (obj_eq c ETX)) pre = true ->
  forall (buf : list str) (w : World unit),
  exists buf' w', forall keys,
      smart_input_loop up scripted target buf (pre ++ keys) w
      = smart_input_loop up scripted target buf' keys w'.
Proof.
  induction pre as [|c pre IH]; intros H buf w.
  - now exists buf, w.
  - cbn [forallb] in H. apply andb_true_iff in H as [Hc H].
    apply andb_true_iff in Hc as [Hs He].
    apply negb_true_iff in Hs, He.
    destruct (loop_body_continues up unit target c buf w Hs He)
      as [buf1 [w1 Hb]].
    destruct (IH H buf1 w1) as [buf' [w' Hrest]].
    exists buf', w'. intros keys. cbn [app].
    now rewrite scripted_step, Hb, Hrest.
Qed.

(** X9.  A capture ends only at a submit or interrupt key: while the keys
    hold neither, [smart_input] is still waiting when they run out, and it
    returns at the first carriage return or line feed that follows, leaving
    every later key unread. *)
Theorem capture_ends_at_first_submit (up : char -> bool) (target : str)
        (buf : list str) (pre rest : list pyobj) (sub : str)
        (w : World unit) :
  forallb (fun c => negb (obj_in c [CR; LF]) && negb (obj_eq c ETX)) pre = true ->
  In sub [CR; LF] ->
  exists buf' w',
    smart_input_loop up scripted target buf pre w = (Blocked, [], w')
    /\ smart_input_loop up scripted target buf (pre ++ Some sub :: rest) w
       = (Ret (join buf'), rest, write LF w').
Proof.
  intros Hpre Hsub.
  destruct (scripted_quiet_prefix up target pre Hpre buf w) as [buf' [w' H]].
  exists buf', w'. split.
  - rewrite <- (app_nil_r pre). now rewrite H.
  - rewrite H, scripted_step. now rewrite (loop_body_submit up _ _ _ _ _ Hsub).
Qed.

Lemma capture_ends_at_first_submit_example :
  forallb (fun c => negb (obj_in c [CR; LF]) && negb (obj_eq c ETX))
    [Some (py "o"); Some BS; Some TAB; None] = true
  /\ In CR [CR; LF]
  /\ exists buf' w',
      smart_input_loop (fun _ => false) scripted (py "dog") [py "d"]
        [Some (py "o"); Some BS; Some TAB; None] (mkWorld tt [])
      = (Blocked, [], w')
      /\ smart_input_loop (fun _ => false) scripted (py "dog") [py "d"]
           ([Some (py "o"); Some BS; Some TAB; None]
              ++ Some CR :: [Some (py "g"); Some LF]) (mkWorld tt [])
         = (Ret (join buf'), [Some (py "g"); Some LF], write LF w').
Proof.
  split; [reflexivity|]. split; [left; reflexivity|].
  apply (capture_ends_at_first_submit (fun _ => false) (py "dog") [py "d"]
           [Some (py "o"); Some BS; Some TAB; None] [Some (py "g"); Some LF]
           CR (mkWorld tt [])); [reflexivity | left; reflexivity].
Defined.

(** ** What the drill prints *)

Lemma corrects_app (a b : list OutEvent) :
  corrects (a ++ b) = corrects a + corrects b.
Proof. unfold corrects. now rewrite filter_app, length_app. Qed.

Lemma corrects_writes (ss : list str) : corrects (map Write ss) = 0.
Proof. induction ss as [|s ss IH]; [reflexivity | exact IH]. Qed.

Section Writes.

Variable up : char -> bool.
Variables Key Dev : Type.
Variable getch : Key -> Dev -> outcome pyobj * Dev.

Lemma loop_body_writes (target : str) (char : pyobj) (buf : list str)
      (w : World Dev) :
  match loop_body up target char buf w with
  | Continue _ w' | Break _ w' =>
      exists ss, stdout w' = stdout w ++ map Write ss
  end.
Proof.
  assert (H0 : exists ss, stdout w = stdout w ++ map Write ss)
    by (exists []; now rewrite app_nil_r).
  assert (H1 : forall s, exists ss,
               stdout (write s w) = stdout w ++ map Write ss)
    by (intros s; now exists [s]).
  unfold loop_body.
  repeat match goal with
         | |- context [if ?b then _ else _] => destruct b
         | |- context [match ?o with Some _ => _ | None => _ end] => destruct o
         | |- context [let (_, _) := ?p in _] => destruct p
         end; auto.
Qed.

Lemma smart_input_loop_writes (target : str) (keys : list Key) :
  forall (buf : list str) (w : World Dev),
  exists ss,
    stdout (snd (smart_input_loop up getch target buf keys w))
    = stdout w ++ map Write ss.
Proof.
  induction keys as [|k keys IH]; intros buf w; cbn [smart_input_loop].
  - exists []. cbn [snd map]. now rewrite app_nil_r.
  - destruct (getch k (dev w)) as [[char|e|] d];
      try (exists []; cbn [snd stdout map]; now rewrite app_nil_r).
    pose proof (loop_body_writes target char buf (mkWorld d (stdout w))) as Hb.
    destruct (loop_body up target char buf (mkWorld d (stdout w)))
      as [buf' w1|r w1]; destruct Hb as [ss Hss]; cbn [stdout] in Hss.
    + destruct (IH buf' w1) as [ss' Hss']. exists (ss ++ ss').
      now rewrite Hss', Hss, map_app, app_assoc.
    + exists ss. exact Hss.
Qed.

Lemma smart_input_writes (target : str) (keys : list Key) (w : World Dev) :
  exists ss,
    stdout (snd (smart_input up getch target keys w))
    = stdout w ++ map Write ss.
Proof.
  unfold smart_input. destruct (nth_error target 0) as [c0|].
  - destruct (smart_input_loop_writes target keys [[c0]] (write [c0] w))
      as [ss Hss].
    exists ([c0] :: ss). rewrite Hss. cbn [write stdout map].
    now rewrite <- app_assoc.
  - exists []. cbn [snd map]. now rewrite app_nil_r.
Qed.

Lemma main_loop_corrects (words : list str) (fuel : nat) :
  forall (index : nat) (keys keys' : list Key) (w w' : World Dev),
    index <= length words ->
    main_loop up getch fuel words index keys w = Some (Ret tt, keys', w') ->
    corrects (stdout w') = corrects (stdout w) + (length words - index).
Proof.
  induction fuel as [|fuel IH]; intros index keys keys' w w' Hle;
    cbn [main_loop]; destruct (index <? length words) eqn:Hi;
    try discriminate;
    try (apply Nat.ltb_ge in Hi; intros [= _ <-]; cbn [emit stdout];
         rewrite corrects_app; cbn; lia).
  apply Nat.ltb_lt in Hi. unfold main_body.
  destruct (nth_error words index) as [target|]; [|discriminate].
  pose proof (smart_input_writes target keys
                (emit (Prompt index (length words)) w)) as [ss Hss].
  destruct (smart_input up getch target keys _) as [[[s|e|] ks] w1];
    try discriminate.
  cbn [snd emit stdout] in Hss.
  destruct (str_eqb (strip s) target); intros H; apply IH in H; try lia;
    rewrite H; cbn [emit stdout]; rewrite Hss, !corrects_app, corrects_writes;
    cbn; lia.
Qed.

End Writes.

(** X10.  When [main] ends normally on a book of words, "Correct!" was
    printed exactly once per word of the book during the run, whatever keys
    were pressed and however many answers were wrong. *)
Theorem drill_ends_after_every_word (up : char -> bool) (Key Dev : Type)
        (getch : Key -> Dev -> outcome pyobj * Dev) (words : list str)
        (keys keys' : list Key) (w w' : World Dev) :
  main up getch (Some words) keys w = Some (Ret tt, keys', w') ->
  corrects (stdout w') = corrects (stdout w) + length words.
Proof.
  unfold main. destruct words as [|t ws].
  - intros [= _ <-]. cbn [emit stdout]. rewrite corrects_app. cbn. lia.
  - intros H. apply main_loop_corrects in H; [|lia].
    rewrite H. cbn [emit stdout]. rewrite !corrects_app. cbn. lia.
Qed.

Lemma drill_ends_after_every_word_example :
  main (fun _ => false) scripted (Some [py "hi"; py "a"])
    [Some (py "x"); Some CR; Some TAB; Some LF; Some CR] (mkWorld tt [])
  = Some (Ret tt, [],
          mkWorld tt [PrintTitle; PrintStart 2;
                      Prompt 0 2; Write (py "h"); Write (py "x"); Write LF;
                      PrintWrong (py "hx");
                      Prompt 0 2; Write (py "h"); Write (py "i"); Write LF;
                      PrintCorrect;
                      Prompt 1 2; Write (py "a"); Write LF; PrintCorrect;
                      PrintDone])
  /\ corrects [PrintTitle; PrintStart 2;
               Prompt 0 2; Write (py "h"); Write (py "x"); Write LF;
               PrintWrong (py "hx");
               Prompt 0 2; Write (py "h"); Write (py "i"); Write LF;
               PrintCorrect;
               Prompt 1 2; Write (py "a"); Write LF; PrintCorrect;
               PrintDone]
     = corrects [] + length [py "hi"; py "a"].
Proof.
  split; [reflexivity|].
  apply (drill_ends_after_every_word (fun _ => false) pyobj unit scripted
           [py "hi"; py "a"]
           [Some (py "x"); Some CR; Some TAB; Some LF; Some CR] []
           (mkWorld tt [])
           (mkWorld tt [PrintTitle; PrintStart 2;
                        Prompt 0 2; Write (py "h"); Write (py "x"); Write LF;
                        PrintWrong (py "hx");
                        Prompt 0 2; Write (py "h"); Write (py "i"); Write LF;
                        PrintCorrect;
                        Prompt 1 2; Write (py "a"); Write LF; PrintCorrect;
                        PrintDone])).
  reflexivity.
Defined.

(** ** A whole drill *)

Lemma assist_keys_return (up : char -> bool) (c0 : char) (rest : str)
      (keys : list pyobj) (w : World unit) :
  smart_input up scripted (c0 :: rest) (assist_keys (c0 :: rest) ++ keys) w
  = (Ret (c0 :: rest), keys,
     write LF (echo (singles rest) (write [c0] w))).
Proof.
  unfold smart_input, assist_keys. cbn [nth_error length Nat.sub].
  rewrite Nat.sub_0_r, <- app_assoc, scripted_assists. cbv zeta.
  cbn [length skipn app]. rewrite firstn_all, scripted_step.
  rewrite (loop_body_submit up _ _ _ _ LF) by (right; left; reflexivity).
  change ([c0] :: singles rest) with (singles (c0 :: rest)).
  now rewrite join_singles.
Qed.

Lemma main_loop_assisted (up : char -> bool) (todo : list str) :
  Forall (fun word => word <> [] /\ strip word = word) todo ->
  forall (done : list str) (fuel : nat) (keys : list pyobj) (w : World unit),
    length todo <= fuel ->
    exists w',
      main_loop up scripted fuel (done ++ todo) (length done)
        (List.concat (map assist_keys todo) ++ keys) w
      = Some (Ret tt, keys, w')
      /\ corrects (stdout w') = corrects (stdout w) + length todo.
Proof.
  induction 1 as [|word todo [Hne Hs] _ IH]; intros done fuel keys w Hfuel.
  - exists (emit PrintDone w). rewrite app_nil_r. cbn [map List.concat app].
    split; [|cbn [emit stdout]; rewrite corrects_app; cbn; lia].
    destruct fuel; cbn [main_loop]; now rewrite Nat.ltb_irrefl.
  - destruct fuel as [|fuel]; [simpl in Hfuel; lia|].
    destruct word as [|c0 rest]; [congruence|].
    cbn [main_loop].
    assert (Hi : (length done <? length (done ++ (c0 :: rest) :: todo)) = true)
      by (apply Nat.ltb_lt; rewrite length_app; simpl; lia).
    rewrite Hi. unfold main_body.
    rewrite nth_error_app2, Nat.sub_diag by lia. cbn [nth_error].
    cbn [map List.concat]. rewrite <- app_assoc, assist_keys_return.
    rewrite Hs, str_eqb_refl.
    replace (done ++ (c0 :: rest) :: todo) with ((done ++ [c0 :: rest]) ++ todo)
      by (now rewrite <- app_assoc).
    replace (length done + 1) with (length (done ++ [c0 :: rest]))
      by (rewrite length_app; reflexivity).
    destruct (IH (done ++ [c0 :: rest]) fuel keys
                (emit PrintCorrect
                   (write LF
                      (echo (singles rest)
                         (write [c0]
                            (emit (Prompt (length done)
                                     (length ((done ++ [c0 :: rest]) ++ todo)))
                               w))))))
      as [w' [Hrun Hc]]; [simpl in Hfuel; lia|].
    exists w'. split; [exact Hrun|].
    rewrite Hc. cbn [emit write echo stdout dev].
    rewrite !corrects_app, corrects_writes. cbn. lia.
Qed.

Lemma length_assist_keys (words : list str) :
  length words <= length (List.concat (map assist_keys words)).
Proof.
  induction words as [|word words IH]; [simpl; lia|].
  cbn [map List.concat]. rewrite length_app. unfold assist_keys at 1.
  rewrite length_app. simpl. lia.
Qed.

(** X11.  From the file to the end of the drill: for a book file of clean
    words, one per line, answering every word with Tabs for all its letters
    after the first and then Enter makes [main] run through the whole book
    and end normally, with "Correct!" printed once per word, no key left
    over but those that follow, whatever the words are. *)
Theorem assisted_drill_completes (up : char -> bool) (fs : FileSystem)
        (line eol : str) (ls : list str) (keys : list pyobj)
        (w : World unit) :
  fs (py "wordbook" ++ strip line ++ py ".txt") = Some (File (unlines eol ls)) ->
  In eol [LF; CR ++ LF] ->
  forallb one_line ls = true ->
  Forall (fun l => l <> [] /\ strip l = l) ls ->
  exists w',
    main_program up scripted fs line
      (List.concat (map assist_keys ls) ++ keys) w
    = Some (Ret tt, keys, w')
    /\ corrects (stdout w') = corrects (stdout w) + length ls.
Proof.
  intros Hfs Heol Hone Hclean. unfold main_program.
  rewrite (load_wordbook_unlines unit fs (strip line) eol ls _ Hfs Heol Hone).
  rewrite (clean_lines_kept ls Hclean).
  destruct ls as [|l ls'] eqn:E.
  - eexists. split; [reflexivity|].
    cbn [write emit stdout]. rewrite !corrects_app. cbn. lia.
  - rewrite <- E in *.
    destruct (main_loop_assisted up ls Hclean [] (S (length
                (List.concat (map assist_keys ls) ++ keys))) keys
                (emit (PrintStart (length ls))
                   (write book_prompt (emit PrintTitle w))))
      as [w' [Hrun Hc]].
    + rewrite length_app. pose proof (length_assist_keys ls). lia.
    + exists w'. cbn [app length] in Hrun. split; [exact Hrun|].
      rewrite Hc. cbn [write emit stdout]. rewrite !corrects_app. cbn. lia.
Qed.

Lemma assisted_drill_completes_example :
  (fun path => if str_eqb path (py "wordbook1.txt")
               then Some (File (unlines LF [py "hi"; py "tea"])) else None)
    (py "wordbook" ++ strip (py "1 ") ++ py ".txt")
  = Some (File (unlines LF [py "hi"; py "tea"]))
  /\ In LF [LF; CR ++ LF]
  /\ forallb one_line [py "hi"; py "tea"] = true
  /\ Forall (fun l => l <> [] /\ strip l = l) [py "hi"; py "tea"]
  /\ exists w',
      main_program (fun _ => false) scripted
        (fun path => if str_eqb path (py "wordbook1.txt")
                     then Some (File (unlines LF [py "hi"; py "tea"]))
                     else None)
        (py "1 ")
        (List.concat (map assist_keys [py "hi"; py "tea"]) ++ [Some ETX])
        (mkWorld tt [])
      = Some (Ret tt, [Some ETX], w')
      /\ corrects (stdout w')
         = corrects (stdout (mkWorld tt [])) + length [py "hi"; py "tea"].
Proof.
  assert (Hclean : Forall (fun l => l <> [] /\ strip l = l) [py "hi"; py "tea"])
    by (repeat constructor; discriminate).
  split; [reflexivity|]. split; [left; reflexivity|]. split; [reflexivity|].
  split; [exact Hclean|].
  apply (assisted_drill_completes (fun _ => false)
           (fun path => if str_eqb path (py "wordbook1.txt")
                        then Some (File (unlines LF [py "hi"; py "tea"]))
                        else None)
           (py "1 ") LF [py "hi"; py "tea"] [Some ETX] (mkWorld tt []));
    [reflexivity | left; reflexivity | reflexivity | exact Hclean].
Defined.

(** ** The echo mirrors the buffer *)

Lemma replay_app (out1 out2 : list OutEvent) :
  forall buf, replay buf (out1 ++ out2) = replay (replay buf out1) out2.
Proof.
  induction out1 as [|e out1 IH]; intros buf; [reflexivity|].
  destruct e; cbn [app replay]; try apply IH.
  destruct (str_eqb s (BS ++ py " " ++ BS)); apply IH.
Qed.

Lemma printable_not_erase (up : char -> bool) (s : str) :
  isprintable up s = true -> str_eqb s (BS ++ py " " ++ BS) = false.
Proof.
  intros H. apply str_eqb_neq. intros ->. discriminate.
Qed.

Lemma loop_body_replay (up : char -> bool) (Dev : Type) (target : str)
      (char : pyobj) (buf : list str) (w : World Dev) :
  match loop_body up target char buf w with
  | Continue buf' w' =>
      exists out, stdout w' = stdout w ++ out /\ replay buf out = buf'
  | Break (Ret s) w' => stdout w' = stdout w ++ [Write LF] /\ s = join buf
  | Break _ _ => True
  end.
Proof.
  assert (Hnone : exists out, stdout w = stdout w ++ out /\ replay buf out = buf)
    by (exists []; split; [now rewrite app_nil_r | reflexivity]).
  unfold loop_body.
  destruct (obj_in char [CR; LF]); [now split|].
  destruct (obj_eq char TAB).
  { destruct (length buf <? length target); [|exact Hnone].
    destruct (nth_error target (length buf)) as [c|]; [|exact I].
    exists [Write [c]]. split; [reflexivity|].
    cbn [replay]. replace (str_eqb [c] (BS ++ py " " ++ BS)) with false;
      [reflexivity|].
    simpl. now rewrite andb_false_r. }
  destruct (obj_in char [BS; DEL]).
  { destruct (0 <? length buf); [|exact Hnone].
    destruct (pop buf) as [[r x]|] eqn:E; [|exact I].
    apply pop_Some in E. subst buf.
    exists [Write (BS ++ py " " ++ BS)]. split; [reflexivity|].
    cbn [replay]. rewrite str_eqb_refl. apply removelast_last. }
  destruct (truthy char && isprintable up (as_str char)) eqn:E.
  { apply andb_true_iff in E as [_ E].
    exists [Write (as_str char)]. split; [reflexivity|].
    cbn [replay]. now rewrite (printable_not_erase up _ E). }
  destruct (obj_eq char ETX); [exact I | exact Hnone].
Qed.

Lemma smart_input_loop_replay (up : char -> bool) (Key Dev : Type)
      (getch : Key -> Dev -> outcome pyobj * Dev) (target : str)
      (keys : list Key) :
  forall (buf : list str) (w : World Dev) (s : str) (keys' : list Key)
         (w' : World Dev),
    smart_input_loop up getch target buf keys w = (Ret s, keys', w') ->
    exists out,
      stdout w' = stdout w ++ out ++ [Write LF]
      /\ s = join (replay buf out).
Proof.
  induction keys as [|k keys IH]; intros buf w s keys' w';
    cbn [smart_input_loop]; [discriminate|].
  destruct (getch k (dev w)) as [[char|e|] d]; try discriminate.
  pose proof (loop_body_replay up Dev target char buf (mkWorld d (stdout w)))
    as Hb.
  destruct (loop_body up target char buf (mkWorld d (stdout w)))
    as [buf1 w1|r w1]; cbn [stdout] in Hb.
  - destruct Hb as [out1 [Ho <-]]. intros H.
    destruct (IH _ _ _ _ _ H) as [out [Hout ->]].
    exists (out1 ++ out). split.
    + now rewrite Hout, Ho, <- !app_assoc.
    + now rewrite replay_app.
  - intros [= -> _ <-]. destruct Hb as [Ho ->].
    exists []. split; [exact Ho | reflexivity].
Qed.

(** X12.  The display mirrors the answer.  When [smart_input] returns, what
    it wrote since it was called is the echo of the seed and of every change
    of the buffer, closed by one newline: reading the writes in order, each
    erase sequence ["\b \b"] taking back the latest text not yet taken back,
    leaves exactly the pieces of the returned string. *)
Theorem echo_mirrors_answer (up : char -> bool) (Key Dev : Type)
        (getch : Key -> Dev -> outcome pyobj * Dev) (target : str)
        (keys keys' : list Key) (w w' : World Dev) (s : str) :
  smart_input up getch target keys w = (Ret s, keys', w') ->
  exists shown,
    stdout w' = stdout w ++ shown ++ [Write LF]
    /\ join (replay [] shown) = s.
Proof.
  unfold smart_input. destruct (nth_error target 0) as [c0|]; [|discriminate].
  intros H.
  destruct (smart_input_loop_replay up Key Dev getch target keys _ _ _ _ _ H)
    as [out [Hout ->]].
  exists (Write [c0] :: out). split.
  - rewrite Hout. cbn [write stdout]. now rewrite <- app_assoc.
  - cbn [replay]. replace (str_eqb [c0] (BS ++ py " " ++ BS)) with false;
      [reflexivity|].
    simpl. now rewrite andb_false_r.
Qed.

Lemma echo_mirrors_answer_example :
  smart_input (fun _ => false) scripted (py "dog")
    [Some (py "x"); Some DEL; Some TAB; Some (py "g"); Some CR]
    (mkWorld tt [Prompt 0 1])
  = (Ret (py "dog"), [],
     mkWorld tt [Prompt 0 1; Write (py "d"); Write (py "x"); Write erase;
                 Write (py "o"); Write (py "g"); Write LF])
  /\ exists shown,
      [Prompt 0 1; Write (py "d"); Write (py "x"); Write erase;
       Write (py "o"); Write (py "g"); Write LF]
      = [Prompt 0 1] ++ shown ++ [Write LF]
      /\ join (replay [] shown) = py "dog".
Proof.
  split; [reflexivity|].
  apply (echo_mirrors_answer (fun _ => false) pyobj unit scripted (py "dog")
           [Some (py "x"); Some DEL; Some TAB; Some (py "g"); Some CR] []
           (mkWorld tt [Prompt 0 1])
           (mkWorld tt [Prompt 0 1; Write (py "d"); Write (py "x");
                        Write erase; Write (py "o"); Write (py "g");
                        Write LF])
           (py "dog")).
  reflexivity.
Defined.

(** ** The console reader *)

Lemma loop_body_chars (up : char -> bool) (Dev : Type) (P : char -> Prop)
      (target : str) (char : pyobj) (buf : list str) (w : World Dev) :
  (forall c, In c target -> P c) ->
  (truthy char && isprintable up (as_str char) = true ->
   Forall P (as_str char)) ->
  Forall (Forall P) buf ->
  match loop_body up target char buf w with
  | Continue buf' _ => Forall (Forall P) buf'
  | Break (Ret s) _ => Forall P s
  | Break _ _ => True
  end.
Proof.
  intros Ht Hc Hbuf. unfold loop_body.
  destruct (obj_in char [CR; LF]).
  { unfold join. now apply Forall_concat. }
  destruct (obj_eq char TAB).
  { destruct (length buf <? length target); [|exact Hbuf].
    destruct (nth_error target (length buf)) as [c|] eqn:E; [|exact I].
    apply Forall_app. split; [exact Hbuf|].
    constructor; [|constructor]. constructor; [|constructor].
    apply Ht. exact (nth_error_In _ _ E). }
  destruct (obj_in char [BS; DEL]).
  { destruct (0 <? length buf); [|exact Hbuf].
    destruct (pop buf) as [[r x]|] eqn:E; [|exact I].
    apply pop_Some in E. subst buf. now apply Forall_app in Hbuf as [Hr _]. }
  destruct (truthy char && isprintable up (as_str char)).
  { apply Forall_app. split; [exact Hbuf|]. constructor; [|constructor].
    now apply Hc. }
  destruct (obj_eq char ETX); [exact I | exact Hbuf].
Qed.

Lemma console_printable_is_ascii (up : char -> bool) (k : _GetchWindows.Key)
      (consumed : list byte) (char : pyobj) :
  fst (_GetchWindows.__call__ k consumed) = Ret char ->
  truthy char && isprintable up (as_str char) = true ->
  Forall (fun c => (32 <= c <= 126)%N) (as_str char).
Proof.
  rewrite windows_reader_value. intros [= <-].
  destruct (Byte.eqb _ x00 || Byte.eqb _ xe0); [discriminate|].
  unfold _GetchWindows.decode. cbv zeta.
  destruct (N.ltb_spec (Byte.to_N (_GetchWindows.first k)) 128) as [Hlt|Hge];
    [|discriminate].
  cbn [as_str truthy isprintable forallb andb]. unfold isprintable_char.
  apply N.ltb_lt in Hlt. rewrite Hlt, andb_true_r, andb_true_iff, !N.leb_le.
  intros H. constructor; [exact H | constructor].
Qed.

(** X13.  On the console a character outside printable ASCII never comes
    from the keyboard: every character of the string [smart_input] returns
    with the console reader is a printable ASCII character (32 to 126) or a
    character of the target, put there as the seed or by Tab. *)
Theorem console_types_ascii_only (up : char -> bool) (target : str)
        (keys keys' : list _GetchWindows.Key) (w w' : World (list byte))
        (s : str) :
  smart_input up _GetchWindows.__call__ target keys w = (Ret s, keys', w') ->
  Forall (fun c => (32 <= c <= 126)%N \/ In c target) s.
Proof.
  unfold smart_input. destruct target as [|c0 rest]; [discriminate|].
  cbn [nth_error].
  set (P := fun c => (32 <= c <= 126)%N \/ In c (c0 :: rest)).
  assert (Hseed : Forall (Forall P) [[c0]]).
  { constructor; [|constructor]. constructor; [|constructor]. right. now left. }
  revert Hseed. generalize [[c0]] (write [c0] w). clear w. revert s keys' w'.
  induction keys as [|k keys IH]; intros s keys' w' buf w Hbuf;
    cbn [smart_input_loop]; [discriminate|].
  pose proof (console_printable_is_ascii up k (dev w)) as Hk.
  destruct (_GetchWindows.__call__ k (dev w)) as [[char|e|] d];
    try discriminate.
  cbn [fst] in Hk. specialize (Hk char eq_refl).
  pose proof (loop_body_chars up (list byte) P (c0 :: rest) char buf
                (mkWorld d (stdout w))) as Hb.
  destruct (loop_body up (c0 :: rest) char buf (mkWorld d (stdout w)))
    as [buf1 w1|r w1].
  - apply IH. apply Hb; [intros c Hc; now right | | exact Hbuf].
    intros Hp. eapply Forall_impl; [|exact (Hk Hp)]. intros c Hc. now left.
  - intros [= -> _ _]. apply Hb; [intros c Hc; now right | | exact Hbuf].
    intros Hp. eapply Forall_impl; [|exact (Hk Hp)]. intros c Hc. now left.
Qed.

Lemma console_types_ascii_only_example :
  smart_input (fun _ => true) _GetchWindows.__call__ [233; 116; 233]%N
    [_GetchWindows.mkKey xc3 xa9; _GetchWindows.mkKey xa9 "t";
     _GetchWindows.mkKey "t" x09; _GetchWindows.mkKey x09 x0d;
     _GetchWindows.mkKey x0d x00]%byte
    (mkWorld [] [])
  = (Ret [233; 116; 233]%N, [],
     mkWorld [xc3; xa9; "t"; x09; x0d]%byte
       [Write [233%N]; Write (py "t"); Write [233%N]; Write LF])
  /\ Forall (fun c => (32 <= c <= 126)%N \/ In c [233; 116; 233]%N)
       [233; 116; 233]%N.
Proof.
  split; [reflexivity|].
  apply (console_types_ascii_only (fun _ => true) [233; 116; 233]%N
           [_GetchWindows.mkKey xc3 xa9; _GetchWindows.mkKey xa9 "t";
            _GetchWindows.mkKey "t" x09; _GetchWindows.mkKey x09 x0d;
            _GetchWindows.mkKey x0d x00]%byte
           [] (mkWorld [] [])
           (mkWorld [xc3; xa9; "t"; x09; x0d]%byte
              [Write [233%N]; Write (py "t"); Write [233%N]; Write LF])
           [233; 116; 233]%N).
  reflexivity.
Defined.

(** ** The POSIX reader when the terminal fails *)

(** X14.  When the attributes were saved but the restore in the [finally]
    block itself fails, the call raises that error whatever the read gave
    (a character read is lost), and the terminal keeps the raw attributes if
    raw mode had been entered. *)
Theorem failed_restore_leaves_raw (TermAttrs : Type)
        (raw : TermAttrs -> TermAttrs) (k : _GetchUnix.Key)
        (t : _GetchUnix.Tty TermAttrs) :
  _GetchUnix.tcgetattr_ok k = true ->
  _GetchUnix.tcsetattr_ok k = false ->
  fst (_GetchUnix.__call__ raw k t) = Raise TermiosError
  /\ _GetchUnix.attrs (snd (_GetchUnix.__call__ raw k t))
     = (if _GetchUnix.setraw_ok k then raw (_GetchUnix.attrs t)
        else _GetchUnix.attrs t)
  /\ last (_GetchUnix.ops (snd (_GetchUnix.__call__ raw k t)))
          (_GetchUnix.TcGetAttr TermAttrs)
     = _GetchUnix.TcSetAttr (_GetchUnix.attrs t).
Proof.
  destruct k as [g s r a]. cbn [_GetchUnix.tcgetattr_ok _GetchUnix.tcsetattr_ok
                                 _GetchUnix.setraw_ok].
  intros -> ->.
  unfold _GetchUnix.__call__, _GetchUnix.bind, _GetchUnix.try_finally,
    _GetchUnix.tcgetattr, _GetchUnix.setraw, _GetchUnix.read,
    _GetchUnix.tcsetattr, _GetchUnix.ret, _GetchUnix.log.
  cbn [_GetchUnix.tcgetattr_ok _GetchUnix.setraw_ok _GetchUnix.read1
       _GetchUnix.tcsetattr_ok].
  destruct s, r; cbn [fst snd _GetchUnix.attrs _GetchUnix.ops];
    rewrite ?last_last; repeat split.
Qed.

Lemma failed_restore_leaves_raw_example :
  _GetchUnix.tcgetattr_ok
    (_GetchUnix.mkKey true true (_GetchUnix.ReadChar 97%N) false) = true
  /\ _GetchUnix.tcsetattr_ok
       (_GetchUnix.mkKey true true (_GetchUnix.ReadChar 97%N) false) = false
  /\ _GetchUnix.__call__ (fun _ => true)
       (_GetchUnix.mkKey true true (_GetchUnix.ReadChar 97%N) false)
       (_GetchUnix.mkTty false [])
     = (Raise TermiosError,
        _GetchUnix.mkTty true
          [_GetchUnix.TcGetAttr bool; _GetchUnix.SetRaw bool;
           _GetchUnix.Read1 true; _GetchUnix.TcSetAttr false])
  /\ fst (_GetchUnix.__call__ (fun _ => true)
            (_GetchUnix.mkKey true true (_GetchUnix.ReadChar 97%N) false)
            (_GetchUnix.mkTty false []))
     = Raise TermiosError.
Proof.
  split; [reflexivity|]. split; [reflexivity|]. split; [reflexivity|].
  apply (failed_restore_leaves_raw bool (fun _ => true)
           (_GetchUnix.mkKey true true (_GetchUnix.ReadChar 97%N) false)
           (_GetchUnix.mkTty false [])); reflexivity.
Defined.

(** X15.  When standard input is not a terminal ([tcgetattr] raises), the
    reader raises before raw mode is requested or anything is read, and the
    run ends there: nothing catches the error in [smart_input] or in the
    drill loop, the prompt and the seed are all that was shown for the word,
    the other keys stay unread and the interpreter exits with status 1. *)
Theorem not_a_terminal_ends_run (TermAttrs : Type)
        (raw : TermAttrs -> TermAttrs) (up : char -> bool)
        (k : _GetchUnix.Key) (keys : list _GetchUnix.Key)
        (fuel : nat) (words : list str) (index : nat) (c0 : char) (rest : str)
        (w : World (_GetchUnix.Tty TermAttrs)) :
  _GetchUnix.tcgetattr_ok k = false ->
  nth_error words index = Some (c0 :: rest) ->
  _GetchUnix.__call__ raw k (dev w)
  = (Raise TermiosError, _GetchUnix.log (_GetchUnix.TcGetAttr TermAttrs) (dev w))
  /\ main_loop up (_GetchUnix.__call__ raw) (S fuel) words index (k :: keys) w
     = Some (Raise TermiosError, keys,
             mkWorld (_GetchUnix.log (_GetchUnix.TcGetAttr TermAttrs) (dev w))
               (stdout w ++ [Prompt index (length words); Write [c0]]))
  /\ exit_status (Raise TermiosError) = Some 1%Z.
Proof.
  intros Hg Ht.
  assert (Hcall : forall t,
             _GetchUnix.__call__ raw k t
             = (Raise TermiosError,
                _GetchUnix.log (_GetchUnix.TcGetAttr TermAttrs) t)).
  { intros t. unfold _GetchUnix.__call__, _GetchUnix.bind, _GetchUnix.tcgetattr.
    now rewrite Hg. }
  split; [apply Hcall|]. split; [|reflexivity].
  apply (main_loop_raise up _ _ (_GetchUnix.__call__ raw) fuel words index
           (c0 :: rest) (k :: keys) keys w _ TermiosError Ht).
  unfold smart_input. cbn [nth_error smart_input_loop write emit dev stdout].
  rewrite Hcall. now rewrite <- app_assoc.
Qed.

Lemma not_a_terminal_ends_run_example :
  _GetchUnix.tcgetattr_ok
    (_GetchUnix.mkKey false true (_GetchUnix.ReadChar 13%N) true) = false
  /\ nth_error [py "hi"] 0 = Some (py "hi")
  /\ main_loop (fun _ => false) (_GetchUnix.__call__ (fun _ => true)) 1
       [py "hi"] 0
       [_GetchUnix.mkKey false true (_GetchUnix.ReadChar 13%N) true]
       (mkWorld (_GetchUnix.mkTty false []) [])
     = Some (Raise TermiosError, [],
             mkWorld (_GetchUnix.mkTty false [_GetchUnix.TcGetAttr bool])
               [Prompt 0 1; Write (py "h")]).
Proof.
  split; [reflexivity|]. split; [reflexivity|].
  apply (not_a_terminal_ends_run bool (fun _ => true) (fun _ => false)
           (_GetchUnix.mkKey false true (_GetchUnix.ReadChar 13%N) true) []
           0 [py "hi"] 0 104%N (py "i")
           (mkWorld (_GetchUnix.mkTty false []) [])); reflexivity.
Defined.

(** ** Readers are interchangeable *)

(** The capture of "cat" above, on the console, seen through the values
    its reader returns. *)
Lemma console_capture_as_scripted :
  Forall2 (fun k c => forall d, fst (_GetchWindows.__call__ k d) = Ret c)
    [_GetchWindows.mkKey "c" "a"; _GetchWindows.mkKey xe0 "H";
     _GetchWindows.mkKey x0d x00]%byte
    [Some (py "c"); None; Some CR]
  /\ fst (fst (smart_input_loop (fun _ => false) _GetchWindows.__call__
                 (py "cat") [py "c"]
                 [_GetchWindows.mkKey "c" "a"; _GetchWindows.mkKey xe0 "H";
                  _GetchWindows.mkKey x0d x00]%byte
                 (mkWorld [] [Write (py "c")])))
     = fst (fst (smart_input_loop (fun _ => false) scripted (py "cat")
                   [py "c"] [Some (py "c"); None; Some CR]
                   (mkWorld tt [Write (py "c")]))).
Proof.
  assert (H : Forall2
                (fun k c => forall d, fst (_GetchWindows.__call__ k d) = Ret c)
                [_GetchWindows.mkKey "c" "a"; _GetchWindows.mkKey xe0 "H";
                 _GetchWindows.mkKey x0d x00]%byte
                [Some (py "c"); None; Some CR])
    by (repeat constructor).
  split; [exact H|].
  apply (smart_input_loop_as_scripted (fun _ => false) _ _
           _GetchWindows.__call__ (py "cat") _ _ H [py "c"]
           (mkWorld [] [Write (py "c")]) (mkWorld tt [Write (py "c")])
           eq_refl).
Defined.

(** ** Without Backspace the buffer only grows *)

Lemma loop_body_grows (up : char -> bool) (Dev : Type) (target : str)
      (char : pyobj) (buf : list str) (w : World Dev) :
  obj_in char [BS; DEL] = false ->
  match loop_body up target char buf w with
  | Continue buf' _ => exists more, buf' = buf ++ more
  | Break (Ret s) _ => s = join buf
  | Break _ _ => True
  end.
Proof.
  intros Hbs.
  assert (H0 : exists more, buf = buf ++ more)
    by (exists []; now rewrite app_nil_r).
  unfold loop_body. rewrite Hbs.
  destruct (obj_in char [CR; LF]); [reflexivity|].
  destruct (obj_eq char TAB).
  { destruct (length buf <? length target); [|exact H0].
    destruct (nth_error target (length buf)) as [c|]; [|exact I].
    now exists [[c]]. }
  destruct (truthy char && isprintable up (as_str char));
    [now exists [as_str char]|].
  destruct (obj_eq char ETX); [exact I | exact H0].
Qed.

Lemma scripted_grows (up : char -> bool) (target : str) (keys : list pyobj) :
  forallb (fun c => negb (obj_in c [BS; DEL])) keys = true ->
  forall (buf : list str) (w w' : World unit) (s : str) (keys' : list pyobj),
    smart_input_loop up scripted target buf keys w = (Ret s, keys', w') ->
    exists typed, s = join buf ++ typed.
Proof.
  induction keys as [|c keys IH]; intros H buf w w' s keys'; [discriminate|].
  cbn [forallb] in H. apply andb_true_iff in H as [Hc H].
  apply negb_true_iff in Hc. rewrite scripted_step.
  pose proof (loop_body_grows up unit target c buf w Hc) as Hb.
  destruct (loop_body up target c buf w) as [buf1 w1|r w1].
  - destruct Hb as [more ->]. intros Hrun.
    destruct (IH H _ _ _ _ _ Hrun) as [typed ->].
    exists (join more ++ typed). now rewrite join_app, <- app_assoc.
  - intros [= -> _ _]. subst s. exists []. now rewrite app_nil_r.
Qed.

(** X17.  A slip can only be undone with Backspace: while no backspace key
    is pressed, whatever is in the buffer stays at the front of the answer.
    So the string returned then starts with the seed, and once the buffer
    has left the target (it is not a prefix of it) the capture cannot return
    the target any more, Tabs included. *)
Theorem no_backspace_keeps_buffer (up : char -> bool) (target : str)
        (buf : list str) (keys keys' : list pyobj) (w w' : World unit)
        (s : str) :
  forallb (fun c => negb (obj_in c [BS; DEL])) keys = true ->
  smart_input_loop up scripted target buf keys w = (Ret s, keys', w') ->
  (exists typed, s = join buf ++ typed)
  /\ ((forall more, target <> join buf ++ more) -> s <> target).
Proof.
  intros Hk Hrun.
  destruct (scripted_grows up target keys Hk buf w w' s keys' Hrun)
    as [typed ->].
  split; [now exists typed|].
  intros Hoff E. now apply (Hoff typed).
Qed.

Lemma no_backspace_keeps_buffer_example :
  forallb (fun c => negb (obj_in c [BS; DEL]))
    [Some TAB; Some TAB; Some CR] = true
  /\ smart_input_loop (fun _ => false) scripted (py "cat") [py "c"; py "x"]
       [Some TAB; Some TAB; Some CR] (mkWorld tt [])
     = (Ret (py "cxt"), [], mkWorld tt [Write (py "t"); Write LF])
  /\ exists typed, py "cxt" = join [py "c"; py "x"] ++ typed.
Proof.
  split; [reflexivity|]. split; [reflexivity|].
  apply (no_backspace_keeps_buffer (fun _ => false) (py "cat")
           [py "c"; py "x"] [Some TAB; Some TAB; Some CR] []
           (mkWorld tt []) (mkWorld tt [Write (py "t"); Write LF]) (py "cxt"));
    reflexivity.
Defined.
